(** * Arachnid: the crawl cycle of [arachnid/crawler/crawler.py]

    A shallow embedding of [Crawler.crawl_next] and of the private methods
    it calls ([finish], [_parse_page], [_parse_document],
    [_update_crawl_delay]).

    The crawler is a thin orchestration layer: almost every line is a call
    into a collaborator (the scheduler, the scraper, the document parser,
    the output accumulator, the warning issuer, [requests], [random] and
    the timer).  The embedding therefore has three layers:

    - the Python built-ins the crawler applies to strings ([str.strip],
      [str.replace], [in], [split("/")[-1]]) are written out;
    - the collaborators are the fields of the class [Collaborators]; those
      the crawler calls inside its [try] block for fetching and parsing
      return a [result], so that they may raise;
    - the methods themselves are programs of a small monad [M] that threads
      the crawler's state, stops at the first exception, and records every
      call with an outside effect as an [event].

    The constructor [Crawler.__init__] and the presets of [CrawlerConfig]
    are embedded the same way.  The functions of
    [arachnid/php/finder/phpfinder.py], which look for the PHP launcher,
    are programs of a second monad [PhpFinder.P] over the saved file and
    the standard input, with the processes they start as a parameter. *)

From stdpp Require Import base option list strings gmap.
From Stdlib Require Import Ascii ZArith Lia.

Local Open Scope Z_scope.

(** ** Python strings *)

Module PyStr.

(** [str.isspace] on one character with a code point below 256. *)
Definition isspace (c : ascii) : bool :=
  let n := nat_of_ascii c in
  ((9 <=? n) && (n <=? 13) || (28 <=? n) && (n <=? 32)
   || (n =? 133) || (n =? 160))%nat.

Fixpoint lstrip (s : string) : string :=
  match s with
  | String c s' => if isspace c then lstrip s' else s
  | EmptyString => EmptyString
  end.

Fixpoint rstrip (s : string) : string :=
  match s with
  | String c s' =>
      match rstrip s' with
      | EmptyString => if isspace c then EmptyString else String c EmptyString
      | r => String c r
      end
  | EmptyString => EmptyString
  end.

(** [s.strip()] *)
Definition strip (s : string) : string := rstrip (lstrip s).

(** [s.replace(old, new)] for a one-character [old]. *)
Fixpoint replace (old : ascii) (new : string) (s : string) : string :=
  match s with
  | String c s' =>
      if Ascii.eqb c old then new +:+ replace old new s'
      else String c (replace old new s')
  | EmptyString => EmptyString
  end.

(** [needle in hay] *)
Fixpoint contains (needle hay : string) : bool :=
  String.prefix needle hay ||
  match hay with
  | String _ hay' => contains needle hay'
  | EmptyString => false
  end.

(** [s.split(sep)[-1]] for a one-character [sep]: what follows the last
    separator, the whole string when there is none. *)
Fixpoint last_segment (sep : ascii) (s : string) : string :=
  match s with
  | String c s' =>
      if contains (String sep EmptyString) s' then last_segment sep s'
      else if Ascii.eqb c sep then s' else s
  | EmptyString => EmptyString
  end.

(** Truth value of a string: the empty string is false. *)
Definition truthy (s : string) : bool :=
  match s with EmptyString => false | _ => true end.

(** Truth value of a value that is [None] or a string. *)
Definition truthy_opt (o : option string) : bool :=
  match o with Some s => truthy s | None => false end.

Fixpoint all_chars (p : ascii -> bool) (s : string) : bool :=
  match s with
  | String c s' => p c && all_chars p s'
  | EmptyString => true
  end.

Definition first_char (s : string) : option ascii :=
  match s with String c _ => Some c | EmptyString => None end.

Fixpoint last_char (s : string) : option ascii :=
  match s with
  | String c EmptyString => Some c
  | String _ s' => last_char s'
  | EmptyString => None
  end.

End PyStr.

(** ** Data model *)

(** What the accessors of a [CrawlerURL] object return: [get_url()],
    [get_netloc()], [get_url_parts().path], [get_extension()],
    [is_fuzzed()] and [in_robots()].  The class itself lives in
    [crawler_url.py]; the crawler only reads these. *)
Record CrawlerURL := {
  get_url : string;
  get_netloc : string;
  get_url_parts_path : string;
  get_extension : string;
  is_fuzzed : bool;
  in_robots : bool
}.

(** A [requests] response.  [headers] is a [CaseInsensitiveDict], which
    stores every header under its lower-cased name; the crawler looks up the
    lower-case key ["content-type"]. *)
Record Response := {
  url : string;
  status_code : Z;
  headers : gmap string string;
  text : string
}.

(** Exceptions: the class name and the message.  The handler of
    [crawl_next] is [except BaseException], so the kind is never
    inspected. *)
Record BaseException := { exn_class : string; exn_message : string }.

Inductive result (A : Type) : Type :=
| Ok (a : A)
| Raise (e : BaseException).
Arguments Ok {A} a.
Arguments Raise {A} e.

(** The dictionary [page_info] built by [_parse_page]. *)
Record PageInfo := {
  pi_path : string;
  pi_title : string;
  pi_custom_string_occurances : option Z;
  pi_on_fuzz_list : bool;
  pi_on_robots : bool;
  pi_code : Z
}.

(** The dictionary returned by the document parser. *)
Abbreviation DocData := (gmap string string).

(** [CrawlerConfig], field by field. *)
Record CrawlerConfig := {
  scrape_links : bool;
  scrape_subdomains : bool;
  scrape_phone_number : bool;
  scrape_email : bool;
  scrape_social_media : bool;
  documents : gset string;
  obey_robots : bool;
  allow_query : bool;
  agent : string;
  custom_str : option string;
  custom_str_case_sensitive : bool;
  custom_regex : option string;
  default_delay : list Z;
  paths_list_file_loc : string;
  subs_list_file_loc : string;
  fuzz_paths : bool;
  fuzz_subs : bool;
  blacklisted_directories : list string
}.

(** [CrawlerConfig.set_default]; the members of [arachnid_enums] and the
    module directory are arguments. *)
Definition set_default (Agent_FIREFOX : string) (Delay_NONE : list Z)
    (this_dir : string) : CrawlerConfig :=
  {| scrape_links := true;
     scrape_subdomains := true;
     scrape_phone_number := true;
     scrape_email := true;
     scrape_social_media := true;
     documents :=
       list_to_set ["doc"; "docx"; "ppt"; "pptx"; "pps"; "xls"; "xlsx"; "csv";
                    "odt"; "odp"; "pdf"; "txt"; "zip"; "rar"; "dmg"; "exe";
                    "apk"; "bin"; "rpm"; "dpkg"];
     obey_robots := true;
     allow_query := true;
     agent := Agent_FIREFOX;
     custom_str := None;
     custom_str_case_sensitive := false;
     custom_regex := None;
     default_delay := Delay_NONE;
     paths_list_file_loc := this_dir +:+ "/data/fuzz_list.txt";
     subs_list_file_loc := this_dir +:+ "/data/subdomain_fuzz_list.txt";
     fuzz_paths := false;
     fuzz_subs := false;
     blacklisted_directories := [] |}.

(** [CrawlerConfig.set_stealth] *)
Definition set_stealth (Agent_GOOGLE : string) (Delay_HIGH : list Z)
    (cfg : CrawlerConfig) : CrawlerConfig :=
  {| scrape_links := scrape_links cfg;
     scrape_subdomains := scrape_subdomains cfg;
     scrape_phone_number := scrape_phone_number cfg;
     scrape_email := scrape_email cfg;
     scrape_social_media := scrape_social_media cfg;
     documents := documents cfg;
     obey_robots := true;
     allow_query := allow_query cfg;
     agent := Agent_GOOGLE;
     custom_str := custom_str cfg;
     custom_str_case_sensitive := custom_str_case_sensitive cfg;
     custom_regex := custom_regex cfg;
     default_delay := Delay_HIGH;
     paths_list_file_loc := paths_list_file_loc cfg;
     subs_list_file_loc := subs_list_file_loc cfg;
     fuzz_paths := false;
     fuzz_subs := false;
     blacklisted_directories := blacklisted_directories cfg |}.

(** [CrawlerConfig.set_aggressive] *)
Definition set_aggressive (Delay_NONE : list Z) (cfg : CrawlerConfig)
    : CrawlerConfig :=
  {| scrape_links := scrape_links cfg;
     scrape_subdomains := scrape_subdomains cfg;
     scrape_phone_number := scrape_phone_number cfg;
     scrape_email := scrape_email cfg;
     scrape_social_media := scrape_social_media cfg;
     documents := documents cfg;
     obey_robots := false;
     allow_query := allow_query cfg;
     agent := agent cfg;
     custom_str := custom_str cfg;
     custom_str_case_sensitive := custom_str_case_sensitive cfg;
     custom_regex := custom_regex cfg;
     default_delay := Delay_NONE;
     paths_list_file_loc := paths_list_file_loc cfg;
     subs_list_file_loc := subs_list_file_loc cfg;
     fuzz_paths := true;
     fuzz_subs := true;
     blacklisted_directories := blacklisted_directories cfg |}.

(** [CrawlerConfig.set_layout_only]; [documents = {}] is an empty
    dictionary, which has no member as the empty set has none. *)
Definition set_layout_only (cfg : CrawlerConfig) : CrawlerConfig :=
  {| scrape_links := scrape_links cfg;
     scrape_subdomains := false;
     scrape_phone_number := false;
     scrape_email := false;
     scrape_social_media := false;
     documents := ∅;
     obey_robots := obey_robots cfg;
     allow_query := allow_query cfg;
     agent := agent cfg;
     custom_str := None;
     custom_str_case_sensitive := custom_str_case_sensitive cfg;
     custom_regex := None;
     default_delay := default_delay cfg;
     paths_list_file_loc := paths_list_file_loc cfg;
     subs_list_file_loc := subs_list_file_loc cfg;
     fuzz_paths := fuzz_paths cfg;
     fuzz_subs := fuzz_subs cfg;
     blacklisted_directories := blacklisted_directories cfg |}.

(** The assignment [config.custom_str = needle]. *)
Definition set_custom_str (needle : option string) (cfg : CrawlerConfig)
    : CrawlerConfig :=
  {| scrape_links := scrape_links cfg;
     scrape_subdomains := scrape_subdomains cfg;
     scrape_phone_number := scrape_phone_number cfg;
     scrape_email := scrape_email cfg;
     scrape_social_media := scrape_social_media cfg;
     documents := documents cfg;
     obey_robots := obey_robots cfg;
     allow_query := allow_query cfg;
     agent := agent cfg;
     custom_str := needle;
     custom_str_case_sensitive := custom_str_case_sensitive cfg;
     custom_regex := custom_regex cfg;
     default_delay := default_delay cfg;
     paths_list_file_loc := paths_list_file_loc cfg;
     subs_list_file_loc := subs_list_file_loc cfg;
     fuzz_paths := fuzz_paths cfg;
     fuzz_subs := fuzz_subs cfg;
     blacklisted_directories := blacklisted_directories cfg |}.

(** The timer [delay_sw]: [Timer(d)] holds the duration it waits for.
    Durations are numbers of Python; they are integers here. *)
Record Timer := { duration : Z }.

(** Every call of the crawler that has an effect outside the crawler object,
    in the order the calls are made.  The two parser constructors are
    recorded too, so that a trace tells which extraction variant ran. *)
Inductive event :=
| EvPrint (c_url : CrawlerURL)
| EvTimerWait (d : Z)
| EvTimerStart (d : Z)
| EvGet (url : string) (user_agent : string) (timeout : Z)
| EvStatusWarning (code : Z) (url : string)
| EvExceptionWarning (e : BaseException) (url : string)
| EvScraper (markup : string) (features : string)
| EvDocumentResponse (response : Response) (docs : gset string)
| EvReportFoundUrls (found : list CrawlerURL)
| EvAddEmail (email : string)
| EvAddPhone (number : string)
| EvAddSocial (social : string)
| EvAddCustomRegex (regex : string)
| EvAddPage (netloc : string) (page_info : PageInfo)
| EvAddDocument (netloc : string) (data : DocData)
| EvEnd.

Definition is_end (ev : event) : bool :=
  match ev with EvEnd => true | _ => false end.

Definition is_report (ev : event) : bool :=
  match ev with EvReportFoundUrls _ => true | _ => false end.

Definition is_get (ev : event) : bool :=
  match ev with EvGet _ _ _ => true | _ => false end.

Definition is_status_warning (ev : event) : bool :=
  match ev with EvStatusWarning _ _ => true | _ => false end.

Definition is_exception_warning (ev : event) : bool :=
  match ev with EvExceptionWarning _ _ => true | _ => false end.

Definition is_html_parser (ev : event) : bool :=
  match ev with EvScraper _ _ => true | _ => false end.

Definition is_document_parser (ev : event) : bool :=
  match ev with EvDocumentResponse _ _ => true | _ => false end.

(** The signals of a page: the calls [add_email], [add_phone], [add_social]
    and [add_custom_regex] on [self.output]. *)
Definition is_signal (ev : event) : bool :=
  match ev with
  | EvAddEmail _ | EvAddPhone _ | EvAddSocial _ | EvAddCustomRegex _ => true
  | _ => false
  end.

(** The page and document records: [add_page] and [add_document]. *)
Definition is_page_or_document (ev : event) : bool :=
  match ev with EvAddPage _ _ | EvAddDocument _ _ => true | _ => false end.

(** Everything appended to the output accumulator. *)
Definition is_record (ev : event) : bool :=
  is_signal ev || is_page_or_document ev.

(** The events of the [try] block of [crawl_next]. *)
Definition is_fetch_event (ev : event) : bool :=
  match ev with
  | EvGet _ _ _ | EvStatusWarning _ _ | EvScraper _ _ | EvDocumentResponse _ _
  | EvReportFoundUrls _ => true
  | _ => is_record ev
  end.

(** The events of parsing a response. *)
Definition is_parse_event (ev : event) : bool :=
  is_record ev || is_report ev || is_html_parser ev || is_document_parser ev.

Definition count (p : event -> bool) (evs : list event) : nat :=
  length (filter (fun ev => p ev = true) evs).

(** ** Collaborators

    The modules the crawler imports and calls.  Scheduler, accumulator,
    warning issuer and timer are state the crawler drives: their calls are
    total and leave an [event].  The HTTP transport, the scraper, the URL
    functions and the [CrawlerURL] constructor are the calls of the [try]
    block that can fail: each returns a [result]. *)
Class Collaborators := {
  (** scheduler.Scheduler *)
  Scheduler : Type;
  next_url : Scheduler -> option CrawlerURL * Scheduler;
  report_found_urls : list CrawlerURL -> Scheduler -> Scheduler;
  get_crawl_delay : Scheduler -> Z;
  (** requests.get(url, headers={"User-Agent": agent}, timeout=t) *)
  requests_get : string -> string -> Z -> result Response;
  (** scraper.Scraper *)
  Scraper : Type;
  Scraper_new : string -> string -> result Scraper;
  find_all_emails : Scraper -> result (list string);
  find_all_phones : Scraper -> result (list string);
  find_all_social : Scraper -> result (list string);
  find_all_regex : Scraper -> string -> result (list string);
  find_all_http_refs : Scraper -> result (list string);
  (** [scraper.title] is [None] or a tag, whose [.string] is [None] or a
      string. *)
  scraper_title : Scraper -> option (option string);
  string_occurances : Scraper -> string -> bool -> result Z;
  (** url_functions.join_url and the constructor CrawlerURL(url, allow_query) *)
  join_url : string -> string -> result string;
  CrawlerURL_new : string -> bool -> result CrawlerURL;
  (** what responseparser.DocumentResponse reads off a response *)
  response_extension : Response -> string;
  response_size : Response -> string;
  (** random: the stream of raw draws of the generator *)
  random_stream : nat -> nat
}.

Section Crawler.
Context `{C : Collaborators}.

(** ** The crawler object and the monad of its methods *)

(** The fields of [self] that change or are read during a cycle, and the
    number of draws made from the random generator.  [self.output] is
    represented by the calls made on it, which are events. *)
Record Crawler := {
  config : CrawlerConfig;
  schedule : Scheduler;
  delay_sw : Timer;
  random_draws : nat
}.

Definition set_schedule (sch : Scheduler) (s : Crawler) : Crawler :=
  {| config := config s; schedule := sch; delay_sw := delay_sw s;
     random_draws := random_draws s |}.

Definition set_delay_sw (t : Timer) (s : Crawler) : Crawler :=
  {| config := config s; schedule := schedule s; delay_sw := t;
     random_draws := random_draws s |}.

Definition set_random_draws (n : nat) (s : Crawler) : Crawler :=
  {| config := config s; schedule := schedule s; delay_sw := delay_sw s;
     random_draws := n |}.

(** What running a method gives: a value or the exception that escaped,
    the crawler afterwards, and the events emitted on the way.  Effects
    made before an exception stay. *)
Record outcome (A : Type) := Outcome {
  res : result A;
  post : Crawler;
  emitted : list event
}.
Arguments Outcome {A} res post emitted.
Arguments res {A} o.
Arguments post {A} o.
Arguments emitted {A} o.

Definition M (A : Type) : Type := Crawler -> outcome A.

Definition ret {A} (a : A) : M A := fun s => Outcome (Ok a) s [].

Definition raise {A} (e : BaseException) : M A := fun s => Outcome (Raise e) s [].

Definition bind {A B} (m : M A) (k : A -> M B) : M B := fun s =>
  let o := m s in
  match res o with
  | Ok a =>
      let o' := k a (post o) in
      Outcome (res o') (post o') (emitted o ++ emitted o')
  | Raise e => Outcome (Raise e) (post o) (emitted o)
  end.

(** [try: body except BaseException as e: handler e] *)
Definition try_except {A} (body : M A) (handler : BaseException -> M A) : M A :=
  fun s =>
    let o := body s in
    match res o with
    | Ok a => o
    | Raise e =>
        let o' := handler e (post o) in
        Outcome (res o') (post o') (emitted o ++ emitted o')
    end.

#[global] Instance M_ret : MRet M := @ret.
#[global] Instance M_bind : MBind M := fun A B k m => bind m k.

Definition emit (ev : event) : M unit := fun s => Outcome (Ok tt) s [ev].

(** A call of a collaborator that returns or raises. *)
Definition call {A} (r : result A) : M A := fun s => Outcome r s [].

(** [for x in xs: body], with the variables the body updates as [acc]. *)
Fixpoint for_in {A S} (xs : list A) (body : A -> S -> M S) (acc : S) : M S :=
  match xs with
  | [] => mret acc
  | x :: xs' => acc' ← body x acc; for_in xs' body acc'
  end.

Definition for_each {A} (xs : list A) (body : A -> M unit) : M unit :=
  for_in xs (fun x _ => body x) tt.

(** ** The calls on the collaborators *)

Definition self_config : M CrawlerConfig := fun s => Outcome (Ok (config s)) s [].

Definition schedule_next_url : M (option CrawlerURL) := fun s =>
  let r := next_url (schedule s) in
  Outcome (Ok (fst r)) (set_schedule (snd r) s) [].

Definition schedule_report_found_urls (found : list CrawlerURL) : M unit :=
  fun s =>
    Outcome (Ok tt) (set_schedule (report_found_urls found (schedule s)) s)
            [EvReportFoundUrls found].

Definition schedule_get_crawl_delay : M Z := fun s =>
  Outcome (Ok (get_crawl_delay (schedule s))) s [].

Definition delay_sw_wait : M unit := fun s =>
  Outcome (Ok tt) s [EvTimerWait (duration (delay_sw s))].

Definition delay_sw_start : M unit := fun s =>
  Outcome (Ok tt) s [EvTimerStart (duration (delay_sw s))].

(** [self.delay_sw = Timer(d)] *)
Definition new_Timer (d : Z) : M unit := fun s =>
  Outcome (Ok tt) (set_delay_sw {| duration := d |} s) [].

Definition IndexError : BaseException :=
  {| exn_class := "IndexError";
     exn_message := "Cannot choose from an empty sequence" |}.

(** [random.choice(seq)]: the element at a drawn index below [len(seq)];
    [IndexError] on an empty sequence. *)
Definition random_choice (seq : list Z) : M Z := fun s =>
  match seq !! (random_stream (random_draws s) mod length seq)%nat with
  | Some x => Outcome (Ok x) (set_random_draws (S (random_draws s)) s) []
  | None => raise IndexError s
  end.

Definition new_Scraper (markup features : string) : M Scraper :=
  emit (EvScraper markup features) ;; call (Scraper_new markup features).

(** Modelled from the spec: [responseparser.DocumentResponse(response,
    documents).extract()]; the module [responseparser] is missing from
    the sources.  Section 4.3: the document variant "returns a metadata
    record (at minimum: size, declared type) only if the response's
    extension is in the recognized set; returns nothing (no record, no
    error) otherwise". *)
Definition DocumentResponse_extract (response : Response)
    (docs : gset string) : option DocData :=
  if decide (response_extension response ∈ docs) then
    Some (<["size" := response_size response]>
            (<["type" := default "" (headers response !! "content-type")]> ∅))
  else None.

Definition new_DocumentResponse_extract (response : Response)
    (docs : gset string) : M (option DocData) :=
  emit (EvDocumentResponse response docs) ;;
  mret (DocumentResponse_extract response docs).

(** ** The methods of [Crawler] *)

(** [Crawler.finish] *)
Definition finish : M unit := emit EvEnd.

(** [Crawler._update_crawl_delay] *)
Definition _update_crawl_delay : M unit :=
  cfg ← self_config;
  sample ← random_choice (default_delay cfg);
  s_delay ← schedule_get_crawl_delay;
  new_Timer (if sample >? s_delay then sample else s_delay).

(** The title expression of [page_info]:
    [scraper.title.string if scraper.title and scraper.title.string
     else url_parts.path.split("/")[-1]] *)
Definition page_title (scraper : Scraper) (path : string) : string :=
  match scraper_title scraper with
  | Some (Some t) => if PyStr.truthy t then t else PyStr.last_segment "/" path
  | _ => PyStr.last_segment "/" path
  end.

(** The body of the loop over [find_all_http_refs()]. *)
Definition found_c_url (cfg : CrawlerConfig) (c_url : CrawlerURL)
    (page : string) : result CrawlerURL :=
  let page := PyStr.replace " " "%20" (PyStr.strip page) in
  match join_url (get_url c_url) page with
  | Ok url => CrawlerURL_new url (allow_query cfg)
  | Raise e => Raise e
  end.

(** [Crawler._parse_page], lines 119-130: the signals gathered according
    to the configuration, each sent to the output. *)
Definition gather_signals (cfg : CrawlerConfig) (scraper : Scraper) : M unit :=
  (if scrape_email cfg then
     emails ← call (find_all_emails scraper);
     for_each emails (fun email => emit (EvAddEmail email))
   else mret tt) ;;
  (if scrape_phone_number cfg then
     numbers ← call (find_all_phones scraper);
     for_each numbers (fun number => emit (EvAddPhone number))
   else mret tt) ;;
  (if scrape_social_media cfg then
     socials ← call (find_all_social scraper);
     for_each socials (fun social => emit (EvAddSocial social))
   else mret tt) ;;
  (if PyStr.truthy_opt (custom_regex cfg) then
     matches ← call (find_all_regex scraper (default "" (custom_regex cfg)));
     for_each matches (fun regex => emit (EvAddCustomRegex regex))
   else mret tt).

(** [Crawler._parse_page], lines 131-136: the list [found_c_urls]. *)
Definition gather_found_c_urls (cfg : CrawlerConfig) (scraper : Scraper)
    (c_url : CrawlerURL) : M (list CrawlerURL) :=
  if scrape_links cfg then
    refs ← call (find_all_http_refs scraper);
    for_in refs
      (fun page found =>
         c ← call (found_c_url cfg c_url page); mret (found ++ [c]))
      []
  else mret [].

(** [Crawler._parse_page], lines 139-144: the dictionary [page_info]. *)
Definition make_page_info (cfg : CrawlerConfig) (scraper : Scraper)
    (response : Response) (c_url : CrawlerURL) (url_parts_path : string)
    : M PageInfo :=
  occurances ←
    (if PyStr.truthy_opt (custom_str cfg) then
       n ← call (string_occurances scraper (default "" (custom_str cfg))
                   (custom_str_case_sensitive cfg));
       mret (Some n)
     else mret None);
  mret {| pi_path := get_extension c_url;
          pi_title := page_title scraper url_parts_path;
          pi_custom_string_occurances := occurances;
          pi_on_fuzz_list := is_fuzzed c_url;
          pi_on_robots := in_robots c_url;
          pi_code := status_code response |}.

(** [Crawler._parse_page] *)
Definition _parse_page (response : Response) (c_url : CrawlerURL) : M unit :=
  cfg ← self_config;
  scraper ← new_Scraper (text response) "html.parser";
  let url_parts_path := get_url_parts_path c_url in
  gather_signals cfg scraper ;;
  found_c_urls ← gather_found_c_urls cfg scraper c_url;
  schedule_report_found_urls found_c_urls ;;
  page_info ← make_page_info cfg scraper response c_url url_parts_path;
  emit (EvAddPage (get_netloc c_url) page_info).

(** [Crawler._parse_document]; [if data:] is false for [None] and for an
    empty dictionary. *)
Definition _parse_document (response : Response) (c_url : CrawlerURL) : M unit :=
  cfg ← self_config;
  data ← new_DocumentResponse_extract response (documents cfg);
  schedule_report_found_urls [] ;;
  match data with
  | Some d =>
      if decide (d = ∅) then mret tt
      else emit (EvAddDocument (get_netloc c_url)
                   (<["path" := get_url_parts_path c_url]> d))
  | None => mret tt
  end.

(** [crawl_next], lines 94-98: the choice of the parser by the
    [content-type] header. *)
Definition parse_response (r : Response) (c_url : CrawlerURL) : M unit :=
  match headers r !! "content-type" with
  | Some content_type =>
      if PyStr.contains "text/html" content_type then _parse_page r c_url
      else _parse_document r c_url
  | None => mret tt
  end.

(** [crawl_next], lines 92-98: the body of the [try] block. *)
Definition fetch_and_parse (c_url : CrawlerURL) : M unit :=
  cfg ← self_config;
  emit (EvGet (get_url c_url) (agent cfg) 30) ;;
  r ← call (requests_get (get_url c_url) (agent cfg) 30);
  emit (EvStatusWarning (status_code r) (get_url c_url)) ;;
  parse_response r c_url.

(** [crawl_next], lines 99-101: the [except BaseException as e] block. *)
Definition on_exception (c_url : CrawlerURL) (e : BaseException) : M unit :=
  emit (EvExceptionWarning e (get_url c_url)) ;;
  schedule_report_found_urls [].

(** [Crawler.crawl_next] *)
Definition crawl_next : M bool :=
  c_url ← schedule_next_url;
  match c_url with
  | None => finish ;; mret false
  | Some c_url =>
      emit (EvPrint c_url) ;;
      delay_sw_wait ;;
      try_except (fetch_and_parse c_url) (on_exception c_url) ;;
      _update_crawl_delay ;;
      delay_sw_start ;;
      mret true
  end.

(** Modelled from the spec: the loop that calls [crawl_next] until it
    answers [False]; it belongs to the callers of the crawler, which are
    missing from the sources.  Section 4.4: "States: Ready, Fetching,
    Extracting, Updating-Frontier, Delaying, Ready (loop), terminal
    Finished".  [None] is a crawl still running when the fuel is spent. *)
Fixpoint crawl (fuel : nat) (s : Crawler) : option (outcome unit) :=
  match fuel with
  | O => None
  | S fuel' =>
      let o := crawl_next s in
      match res o with
      | Ok true =>
          match crawl fuel' (post o) with
          | Some o' =>
              Some (Outcome (res o') (post o') (emitted o ++ emitted o'))
          | None => None
          end
      | Ok false => Some (Outcome (Ok tt) (post o) (emitted o))
      | Raise e => Some (Outcome (Raise e) (post o) (emitted o))
      end
  end.

(** The frontier becomes exhausted after [n] fetching cycles: [n] calls of
    [crawl_next] find a URL, and the next finds none. *)
Fixpoint exhausts (n : nat) (s : Crawler) : Prop :=
  match n with
  | O => fst (next_url (schedule s)) = None
  | S n' =>
      fst (next_url (schedule s)) <> None /\ exhausts n' (post (crawl_next s))
  end.

(** ** Predicates on runs *)

(** [keeps Q P m]: whatever the crawler [s] it starts from, [m] ends in a
    crawler related to [s] by [Q] and emits only events that satisfy [P]. *)
Definition keeps {A} (Q : Crawler -> Crawler -> Prop) (P : event -> Prop)
    (m : M A) : Prop :=
  forall s, Q s (post (m s)) /\ Forall P (emitted (m s)).

(** Nothing of the crawler changed but its schedule. *)
Definition only_schedule (s s' : Crawler) : Prop :=
  s' = set_schedule (schedule s') s.

Definition no_event (ev : event) : Prop := False.

(** The crawler after [self.schedule.report_found_urls(found)]. *)
Definition reported (found : list CrawlerURL) (s : Crawler) : Crawler :=
  set_schedule (report_found_urls found (schedule s)) s.

(** The five ways [_parse_page] can go: the scraper cannot be built; a
    signal scan raises; a link cannot be turned into a [CrawlerURL]; the
    occurrence count raises after the links were reported; the page is
    recorded. *)
Inductive parse_page_run (r : Response) (c_url : CrawlerURL) (s : Crawler)
  : outcome unit -> Prop :=
| scraper_raises e :
    Scraper_new (text r) "html.parser" = Raise e ->
    parse_page_run r c_url s
      (Outcome (Raise e) s [EvScraper (text r) "html.parser"])
| signals_raise scraper signals e :
    Scraper_new (text r) "html.parser" = Ok scraper ->
    gather_signals (config s) scraper s = Outcome (Raise e) s signals ->
    parse_page_run r c_url s
      (Outcome (Raise e) s (EvScraper (text r) "html.parser" :: signals))
| links_raise scraper signals e :
    Scraper_new (text r) "html.parser" = Ok scraper ->
    gather_signals (config s) scraper s = Outcome (Ok tt) s signals ->
    gather_found_c_urls (config s) scraper c_url s = Outcome (Raise e) s [] ->
    parse_page_run r c_url s
      (Outcome (Raise e) s (EvScraper (text r) "html.parser" :: signals))
| page_info_raises scraper signals found e :
    Scraper_new (text r) "html.parser" = Ok scraper ->
    gather_signals (config s) scraper s = Outcome (Ok tt) s signals ->
    gather_found_c_urls (config s) scraper c_url s = Outcome (Ok found) s [] ->
    make_page_info (config s) scraper r c_url (get_url_parts_path c_url)
      (reported found s) = Outcome (Raise e) (reported found s) [] ->
    parse_page_run r c_url s
      (Outcome (Raise e) (reported found s)
         (EvScraper (text r) "html.parser" :: signals
            ++ [EvReportFoundUrls found]))
| page_recorded scraper signals found page_info :
    Scraper_new (text r) "html.parser" = Ok scraper ->
    gather_signals (config s) scraper s = Outcome (Ok tt) s signals ->
    gather_found_c_urls (config s) scraper c_url s = Outcome (Ok found) s [] ->
    make_page_info (config s) scraper r c_url (get_url_parts_path c_url)
      (reported found s) = Outcome (Ok page_info) (reported found s) [] ->
    parse_page_run r c_url s
      (Outcome (Ok tt) (reported found s)
         (EvScraper (text r) "html.parser" :: signals
            ++ [EvReportFoundUrls found;
                EvAddPage (get_netloc c_url) page_info])).


End Crawler.

Arguments Outcome {C A} res post emitted.
Arguments res {C A} o.
Arguments post {C A} o.
Arguments emitted {C A} o.

Arguments _update_crawl_delay : simpl never.
Arguments gather_signals : simpl never.
Arguments gather_found_c_urls : simpl never.
Arguments make_page_info : simpl never.
Arguments _parse_page : simpl never.
Arguments _parse_document : simpl never.
Arguments parse_response : simpl never.
Arguments fetch_and_parse : simpl never.
Arguments try_except : simpl never.
Arguments crawl_next : simpl never.

(** ** A small site

    One instance of the collaborators, on which the model runs: a site of
    five URLs served by a table, a scraper that reads canned markup, and a
    first-in first-out queue as the scheduler. *)

Module Site.

Definition c_url_of (u path ext : string) : CrawlerURL :=
  {| get_url := u; get_netloc := "x.test"; get_url_parts_path := path;
     get_extension := ext; is_fuzzed := false; in_robots := false |}.

Definition index := c_url_of "http://x.test/" "/" "".
Definition archive := c_url_of "http://x.test/files/a.zip" "/files/a.zip" "zip".
Definition down := c_url_of "http://x.test/down" "/down" "".
Definition bare := c_url_of "http://x.test/bare" "/bare" "".
Definition broken := c_url_of "http://x.test/broken" "/broken" "".

Definition ConnectionError : BaseException :=
  {| exn_class := "ConnectionError"; exn_message := "connection refused" |}.

Definition ExtractionError : BaseException :=
  {| exn_class := "ValueError"; exn_message := "bad pattern" |}.

Definition get (u : string) (agent : string) (timeout : Z) : result Response :=
  if decide (u = "http://x.test/") then
    Ok {| url := u; status_code := 200;
          headers := {[ "content-type" := "text/html; charset=utf-8" ]};
          text := "<index>" |}
  else if decide (u = "http://x.test/files/a.zip") then
    Ok {| url := u; status_code := 200;
          headers := {[ "content-type" := "application/zip" ]};
          text := "PK" |}
  else if decide (u = "http://x.test/logo.png") then
    Ok {| url := u; status_code := 200;
          headers := {[ "content-type" := "image/png" ]};
          text := "PNG" |}
  else if decide (u = "http://x.test/bare") then
    Ok {| url := u; status_code := 404; headers := ∅; text := "" |}
  else if decide (u = "http://x.test/broken") then
    Ok {| url := u; status_code := 500;
          headers := {[ "content-type" := "text/html" ]};
          text := "<broken>" |}
  else Raise ConnectionError.

Definition emails (markup : string) : result (list string) :=
  if decide (markup = "<index>") then Ok ["info@x.test"] else Ok [].

Definition phones (markup : string) : result (list string) :=
  if decide (markup = "<broken>") then Raise ExtractionError else Ok [].

Definition refs (markup : string) : result (list string) :=
  if decide (markup = "<index>") then Ok ["  files/a.zip "; "my page.html"]
  else Ok [].

(** Counting the needle ["boom"] fails; any other is found nowhere. *)
Definition occurrences (markup needle : string) (case_sensitive : bool)
    : result Z :=
  if decide (needle = "boom") then Raise ExtractionError else Ok 0.

Record Queue := { pending : list CrawlerURL; robots_delay : Z }.

Definition pop (q : Queue) : option CrawlerURL * Queue :=
  match pending q with
  | [] => (None, q)
  | c :: rest => (Some c, {| pending := rest; robots_delay := robots_delay q |})
  end.

Definition push (found : list CrawlerURL) (q : Queue) : Queue :=
  {| pending := pending q ++ found; robots_delay := robots_delay q |}.

#[local] Instance site : Collaborators := {|
  Scheduler := Queue;
  next_url := pop;
  report_found_urls := push;
  get_crawl_delay := robots_delay;
  requests_get := get;
  Scraper := string;
  Scraper_new := fun markup _ => Ok markup;
  find_all_emails := emails;
  find_all_phones := phones;
  find_all_social := fun _ => Ok [];
  find_all_regex := fun _ _ => Ok [];
  find_all_http_refs := refs;
  scraper_title := fun _ => None;
  string_occurances := occurrences;
  join_url := fun base page => Ok (base +:+ page);
  CrawlerURL_new := fun u _ => Ok (c_url_of u u "");
  response_extension := fun r => PyStr.last_segment "." (url r);
  response_size := fun _ => "2";
  random_stream := fun n => n
|}.

Definition cfg : CrawlerConfig := set_default "Firefox" [0; 2; 5] "/opt/arachnid".

Definition crawler_with (cfg : CrawlerConfig) (todo : list CrawlerURL)
    (robots : Z) : Crawler :=
  {| config := cfg;
     schedule := {| pending := todo; robots_delay := robots |};
     delay_sw := {| duration := 0 |};
     random_draws := 0 |}.

Definition crawler : list CrawlerURL -> Z -> Crawler := crawler_with cfg.

End Site.

(** ** More Python built-ins: [str.split] and [bytes.decode] *)

Module PyText.

(** [s] is empty or begins with whitespace: a word that ends before [s]
    is complete. *)
Definition at_word_end (s : string) : bool :=
  match s with
  | String c _ => PyStr.isspace c
  | EmptyString => true
  end.

(** [s.split()]: the maximal runs of characters that are not whitespace,
    in order; no empty string among them. *)
Fixpoint split (s : string) : list string :=
  match s with
  | String c s' =>
      if PyStr.isspace c then split s'
      else if at_word_end s' then String c EmptyString :: split s'
      else match split s' with
           | word :: words => String c word :: words
           | [] => [String c EmptyString]
           end
  | EmptyString => []
  end.

(** [s.split(sep)] for a one-character [sep]: the pieces between the
    separators, empty pieces included; never the empty list. *)
Fixpoint split_on (sep : ascii) (s : string) : list string :=
  match s with
  | String c s' =>
      if Ascii.eqb c sep then EmptyString :: split_on sep s'
      else match split_on sep s' with
           | piece :: pieces => String c piece :: pieces
           | [] => [String c EmptyString]
           end
  | EmptyString => [EmptyString]
  end.


Definition between (lo hi b : N) : bool := ((lo <=? b) && (b <=? hi))%N.

(** Well-formed UTF-8, as the strict decoder of Python accepts it: no
    overlong form, no surrogate, nothing above U+10FFFF, no truncated
    sequence. *)
Fixpoint utf8_valid (bs : list N) : bool :=
  match bs with
  | [] => true
  | b0 :: r0 =>
      if (b0 <=? 127)%N then utf8_valid r0
      else
        match r0 with
        | [] => false
        | b1 :: r1 =>
            if between 194 223 b0 then between 128 191 b1 && utf8_valid r1
            else
              match r1 with
              | [] => false
              | b2 :: r2 =>
                  if between 224 239 b0 then
                    (if (b0 =? 224)%N then between 160 191 b1
                     else if (b0 =? 237)%N then between 128 159 b1
                     else between 128 191 b1)
                    && between 128 191 b2 && utf8_valid r2
                  else
                    match r2 with
                    | [] => false
                    | b3 :: r3 =>
                        between 240 244 b0
                        && (if (b0 =? 240)%N then between 144 191 b1
                            else if (b0 =? 244)%N then between 128 143 b1
                            else between 128 191 b1)
                        && between 128 191 b2 && between 128 191 b3
                        && utf8_valid r3
                    end
              end
        end
  end.

Definition bytes_of (s : string) : list N :=
  map N_of_ascii (String.list_ascii_of_string s).

Definition UnicodeDecodeError : BaseException :=
  {| exn_class := "UnicodeDecodeError";
     exn_message := "'utf-8' codec can't decode" |}.

(** [b.decode('utf-8')].  The text is kept in its UTF-8 encoding: a
    byte below 128 stands for itself and occurs in no longer sequence, so
    splitting at a newline and searching an ASCII needle give the same
    answers on the encoding as on the decoded text. *)
Definition decode_utf8 (b : string) : result string :=
  if utf8_valid (bytes_of b) then Ok b else Raise UnicodeDecodeError.

End PyText.

(** * The PHP finder of [arachnid/php/finder/phpfinder.py] *)

Module PhpFinder.

(** What [subprocess.Popen(args, stdout=PIPE, stderr=PIPE)] followed by
    [proc.communicate("", 2)] comes to: the two captured streams, or the
    exception raised on the way. *)
Inductive process :=
| Communicated (out err : string)
| TimeoutExpired
| FileNotFound
| Failed (e : BaseException).

(** The machine the finder runs on: which command lines start a process,
    and what the process prints. *)
Class System := { popen : list string -> process }.

(** The file [saved_php_path.txt] next to the module, [None] while it does
    not exist, and the lines waiting on the standard input. *)
Record world := {
  saved_php_path_file : option string;
  stdin : list string
}.

(** What the functions do outside themselves: opening the saved file for
    reading or writing, starting a process, printing, asking for a line. *)
Inductive io :=
| IoOpenRead
| IoOpenWrite (content : string)
| IoPopen (args : list string)
| IoPrint (line : string)
| IoInput (prompt : string).

#[global] Instance io_eq_dec : EqDecision io.
Proof. solve_decision. Defined.



(** A run of a function of the module: the value returned or the
    exception that escaped, the world afterwards, what was done on the
    way. *)
Record ran (A : Type) := Ran {
  answer : result A;
  after : world;
  trace : list io
}.
Arguments Ran {A} answer after trace.
Arguments answer {A} r.
Arguments after {A} r.
Arguments trace {A} r.

Definition P (A : Type) : Type := world -> ran A.

Definition P_bind {A B} (m : P A) (k : A -> P B) : P B := fun w =>
  let r := m w in
  match answer r with
  | Ok a =>
      let r' := k a (after r) in
      Ran (answer r') (after r') (trace r ++ trace r')
  | Raise e => Ran (Raise e) (after r) (trace r)
  end.

#[global] Instance P_ret : MRet P := fun A a w => Ran (Ok a) w [].
#[global] Instance P_mbind : MBind P := fun A B k m => P_bind m k.

Definition throw {A} (e : BaseException) : P A := fun w => Ran (Raise e) w [].

Definition lift {A} (r : result A) : P A := fun w => Ran r w [].

Definition log (ev : io) : P unit := fun w => Ran (Ok tt) w [ev].

Definition print (line : string) : P unit := log (IoPrint line).

Definition IndexError : BaseException :=
  {| exn_class := "IndexError"; exn_message := "list index out of range" |}.

Definition FileNotFoundError : BaseException :=
  {| exn_class := "FileNotFoundError";
     exn_message := "No such file or directory" |}.

Definition EOFError : BaseException :=
  {| exn_class := "EOFError"; exn_message := "EOF when reading a line" |}.

(** [xs[i]] *)
Definition item (xs : list string) (i : nat) : P string :=
  match xs !! i with
  | Some x => mret x
  | None => throw IndexError
  end.

Definition linux_default : string := "/usr/bin/php".

Definition launcher_prompt : string :=
  "Please enter the location of the PHP launcher on your system: ".

Definition unable_message : string :=
  "Arachnid was unable to automatically locate the PHP server on the system.".

(** The message starts with a newline. *)
Definition not_found_message : string :=
  String "010"%char "The PHP server was not found at that location.".

Section Finder.
Context `{Sys : System}.

(** [is_php_launcher]: the two [except] clauses answer [False]; any
    other exception of the [try] block escapes. *)
Definition is_php_launcher (file_loc : string) : P bool :=
  let args := PyText.split (file_loc +:+ " -v") in
  log (IoPopen args) ;;
  match popen args with
  | TimeoutExpired => mret false
  | FileNotFound => mret false
  | Failed e => throw e
  | Communicated out err =>
      if PyStr.truthy err then mret false
      else
        out ← lift (PyText.decode_utf8 out);
        let out_lines := PyText.split_on "010" out in
        first ← item out_lines 0;
        if PyStr.contains "PHP" first then
          second ← item out_lines 1;
          mret (PyStr.contains "The PHP Group" second)
        else mret false
  end.

(** [input(prompt)] when a line is waiting: the lines [rest] are left. *)
Definition input_leaves (prompt : string) (rest : list string) : P unit :=
  fun w =>
    Ran (Ok tt)
        {| saved_php_path_file := saved_php_path_file w; stdin := rest |}
        [IoInput prompt].

Definition waiting_lines : P (list string) := fun w => Ran (Ok (stdin w)) w [].

(** [open(saved_php_path_file, "r")] and [f.read()]; opening a file that
    does not exist raises [FileNotFoundError]. *)
Definition read_saved_php_path_file : P string := fun w =>
  match saved_php_path_file w with
  | Some content => Ran (Ok content) w [IoOpenRead]
  | None => Ran (Raise FileNotFoundError) w [IoOpenRead]
  end.

(** [save_path] *)
Definition save_path (file_loc : string) : P unit := fun w =>
  Ran (Ok tt)
      {| saved_php_path_file := Some file_loc; stdin := stdin w |}
      [IoOpenWrite file_loc].

(** The loop of [prompt_for_php_path], over the lines [lines] waiting on
    the standard input: [input] takes the first of them, and raises
    [EOFError] when there is none. *)
Fixpoint prompt_loop (lines : list string) : P string :=
  match lines with
  | [] => log (IoInput launcher_prompt) ;; throw EOFError
  | line :: rest =>
      input_leaves launcher_prompt rest ;;
      let path := PyStr.strip line in
      launcher ← is_php_launcher path;
      let path := if (launcher : bool) then Some path else None in
      match path with
      | Some path =>
          if PyStr.truthy path then mret path
          else print not_found_message ;; prompt_loop rest
      | None => print not_found_message ;; prompt_loop rest
      end
  end.

(** [prompt_for_php_path] *)
Definition prompt_for_php_path : P string :=
  print unable_message ;;
  lines ← waiting_lines;
  path ← prompt_loop lines;
  save_path path ;;
  mret path.

(** [check_saved_path] *)
Definition check_saved_path : P (option string) :=
  path ← read_saved_php_path_file;
  launcher ← is_php_launcher path;
  mret (if (launcher : bool) then Some path else None).

(** [check_path_environment_variable] *)
Definition check_path_environment_variable : P (option string) :=
  launcher ← is_php_launcher "php";
  mret (if (launcher : bool) then Some "php" else None).

(** [check_default_path] *)
Definition check_default_path : P (option string) :=
  launcher ← is_php_launcher linux_default;
  mret (if (launcher : bool) then Some linux_default else None).

(** [get_php_path] *)
Definition get_php_path : P (option string) :=
  path ← check_saved_path;
  path ← (if PyStr.truthy_opt path then mret path
          else check_path_environment_variable);
  path ← (if PyStr.truthy_opt path then mret path
          else check_default_path);
  path ← (if PyStr.truthy_opt path then mret path
          else path ← prompt_for_php_path; mret (Some path));
  mret path.

(** What a check of [path] hands to [get_php_path]: the path when the
    probe accepts it, [None] when it does not, the exception when the probe
    raises. *)
Definition probed (path : string) (w : world) : result (option string) :=
  match answer (is_php_launcher path w) with
  | Ok launcher => Ok (if launcher then Some path else None)
  | Raise e => Raise e
  end.

(** The line is turned down by the loop of [prompt_for_php_path]: the
    probe of the stripped line answers [False], or the stripped line is
    empty. *)
Definition turned_down (w : world) (line : string) : Prop :=
  exists launcher,
    answer (is_php_launcher (PyStr.strip line) w) = Ok launcher
    /\ (launcher = true -> PyStr.strip line = "").

End Finder.

Arguments is_php_launcher : simpl never.
Arguments prompt_for_php_path : simpl never.
Arguments check_saved_path : simpl never.
Arguments check_path_environment_variable : simpl never.
Arguments check_default_path : simpl never.
Arguments get_php_path : simpl never.

(** What one rejected line of the standard input leaves in the trace of
    [prompt_for_php_path]: the prompt, the probe of the stripped line, the
    message. *)
Definition rejection (line : string) : list io :=
  [IoInput launcher_prompt;
   IoPopen (PyText.split (PyStr.strip line) ++ ["-v"]);
   IoPrint not_found_message].

(** A machine with PHP installed at [/opt/php/bin/php] only; [python]
    answers on the error stream, [hhvm] prints one line, [slow] never
    finishes. *)
Module Box.

Definition banner : string :=
  "PHP 8.2.1 (cli) (built: Jan  3 2023)" +:+ String "010"%char
  ("Copyright (c) The PHP Group" +:+ String "010"%char "Zend Engine v4.2.1").

Definition run (args : list string) : process :=
  if decide (args = ["/opt/php/bin/php"; "-v"]) then Communicated banner ""
  else if decide (args = ["python"; "-v"]) then
    Communicated "" "import _frozen_importlib"
  else if decide (args = ["hhvm"; "-v"]) then
    Communicated "HipHop VM 4.0 (PHP compatible)" ""
  else if decide (args = ["slow"; "-v"]) then TimeoutExpired
  else FileNotFound.

#[local] Instance box : System := {| popen := run |}.

Definition fresh (lines : list string) : world :=
  {| saved_php_path_file := None; stdin := lines |}.

Definition installed (content : string) (lines : list string) : world :=
  {| saved_php_path_file := Some content; stdin := lines |}.

End Box.

End PhpFinder.

(** * Building a crawler: [Crawler.__init__] *)

(** [scheduler.FuzzingOptions(paths_list_file_loc, subs_list_file_loc)]:
    each argument is a file location or [None]. *)
Record FuzzingOptions := {
  fo_paths_list_file_loc : option string;
  fo_subs_list_file_loc : option string
}.

(** The arguments of the call [Scheduler(seed, useragent=...,
    fuzzing_options=..., respect_robots=..., allow_subdomains=...,
    blacklist_dirs=...)]. *)
Record SchedulerArgs := {
  sa_seed : CrawlerURL;
  sa_useragent : string;
  sa_fuzzing_options : FuzzingOptions;
  sa_respect_robots : bool;
  sa_allow_subdomains : bool;
  sa_blacklist_dirs : list string
}.

(** [__init__], lines 70-77: the arguments handed to [Scheduler]; a fuzz
    list is handed over when its flag is set, [None] otherwise. *)
Definition scheduler_args (seed : CrawlerURL) (config : CrawlerConfig)
    : SchedulerArgs :=
  let fuzzing_options :=
    {| fo_paths_list_file_loc :=
         if fuzz_paths config then Some (paths_list_file_loc config) else None;
       fo_subs_list_file_loc :=
         if fuzz_subs config then Some (subs_list_file_loc config) else None |} in
  {| sa_seed := seed;
     sa_useragent := agent config;
     sa_fuzzing_options := fuzzing_options;
     sa_respect_robots := obey_robots config;
     sa_allow_subdomains := scrape_subdomains config;
     sa_blacklist_dirs := blacklisted_directories config |}.

(** The constructors [__init__] calls: [CrawlerURL(seed)], [Scheduler(...)]
    and [Timer()]. *)
Class Constructors `{C : Collaborators} := {
  CrawlerURL_seed : string -> result CrawlerURL;
  Scheduler_new : SchedulerArgs -> result Scheduler;
  Timer_new : Timer
}.

(** What [__init__] does outside the object it builds, in order; the
    events of the methods it calls are [EvCycle]. *)
Inductive start_event :=
| EvScheduler (args : SchedulerArgs)
| EvDomainData (netloc : string)
| EvOutputStart
| EvAddConfig (config : CrawlerConfig)
| EvCycle (ev : event).

Section Construction.
Context `{K : Constructors}.

(** The object built, or the exception that escaped the constructor, and
    what was done on the way. *)
Record constructed := Constructed {
  built : result Crawler;
  start_events : list start_event
}.

(** [Crawler.__init__(self, seed, config)]; [draws] is the number of draws
    made from the random generator before. *)
Definition Crawler_init (seed : string) (config : CrawlerConfig) (draws : nat)
    : constructed :=
  match CrawlerURL_seed seed with
  | Raise e => Constructed (Raise e) []
  | Ok seed =>
      let args := scheduler_args seed config in
      match Scheduler_new args with
      | Raise e => Constructed (Raise e) [EvScheduler args]
      | Ok sch =>
          let self :=
            {| config := config; schedule := sch; delay_sw := Timer_new;
               random_draws := draws |} in
          let o := (_update_crawl_delay ;; delay_sw_start) self in
          Constructed
            (match res o with Ok _ => Ok (post o) | Raise e => Raise e end)
            ([EvScheduler args; EvDomainData (get_netloc seed);
              EvOutputStart; EvAddConfig config]
               ++ map EvCycle (emitted o))
      end
  end.

End Construction.

Arguments Crawler_init : simpl never.

(** The constructors of the small site: the only seed is the index page,
    the frontier starts with the seed alone, and [robots.txt] asks for a
    delay of 3. *)
Module SiteStart.

Definition InvalidURL : BaseException :=
  {| exn_class := "ValueError"; exn_message := "not a URL of the site" |}.

Definition seed_url (seed : string) : result CrawlerURL :=
  if decide (seed = "http://x.test/") then Ok Site.index
  else Raise InvalidURL.

Definition start_queue (args : SchedulerArgs) : result Site.Queue :=
  Ok {| Site.pending := [sa_seed args];
        Site.robots_delay := if sa_respect_robots args then 3 else 0 |}.

#[local] Instance constructors : @Constructors Site.site :=
  @Build_Constructors Site.site seed_url start_queue {| duration := 0 |}.

End SiteStart.

(** The small site again, with a scraper that finds the address of the
    webmaster on every page. *)
Module Mailing.

Definition emails (markup : string) : result (list string) :=
  Ok ["webmaster@x.test"].

#[local] Instance site : Collaborators := {|
  Scheduler := Site.Queue;
  next_url := Site.pop;
  report_found_urls := Site.push;
  get_crawl_delay := Site.robots_delay;
  requests_get := Site.get;
  Scraper := string;
  Scraper_new := fun markup _ => Ok markup;
  find_all_emails := emails;
  find_all_phones := Site.phones;
  find_all_social := fun _ => Ok [];
  find_all_regex := fun _ _ => Ok [];
  find_all_http_refs := Site.refs;
  scraper_title := fun _ => None;
  string_occurances := Site.occurrences;
  join_url := fun base page => Ok (base +:+ page);
  CrawlerURL_new := fun u _ => Ok (Site.c_url_of u u "");
  response_extension := fun r => PyStr.last_segment "." (url r);
  response_size := fun _ => "2";
  random_stream := fun n => n
|}.

Definition crawler : Crawler :=
  {| config := Site.cfg;
     schedule := {| Site.pending := []; Site.robots_delay := 0 |};
     delay_sw := {| duration := 0 |};
     random_draws := 0 |}.

End Mailing.

(** * Properties *)

(** ** Python strings at work *)

Example strip_ex : PyStr.strip "  /a b/c d.html  " = "/a b/c d.html".
Proof. reflexivity. Qed.

Example replace_ex :
  PyStr.replace " "%char "%20" "/a b/c d.html" = "/a%20b/c%20d.html".
Proof. reflexivity. Qed.

Example contains_ex :
  PyStr.contains "text/html" "text/html; charset=utf-8" = true
  /\ PyStr.contains "text/html" "application/zip" = false
  /\ PyStr.contains "text/html" "Text/HTML" = false.
Proof. repeat split; reflexivity. Qed.

Example last_segment_ex :
  PyStr.last_segment "/"%char "/docs/index.html" = "index.html"
  /\ PyStr.last_segment "/"%char "/docs/" = ""
  /\ PyStr.last_segment "/"%char "plain" = "plain".
Proof. repeat split; reflexivity. Qed.

(** ** The model at work *)

(** One cycle on the index page of the site: the scraper finds one e-mail
    address and two references; the robots delay 1 exceeds the sample 0. *)
Example index_cycle :
  emitted (crawl_next (Site.crawler [Site.index] 1)) =
  [EvPrint Site.index;
   EvTimerWait 0;
   EvGet "http://x.test/" "Firefox" 30;
   EvStatusWarning 200 "http://x.test/";
   EvScraper "<index>" "html.parser";
   EvAddEmail "info@x.test";
   EvReportFoundUrls
     [Site.c_url_of "http://x.test/files/a.zip" "http://x.test/files/a.zip" "";
      Site.c_url_of "http://x.test/my%20page.html"
        "http://x.test/my%20page.html" ""];
   EvAddPage "x.test"
     {| pi_path := ""; pi_title := ""; pi_custom_string_occurances := None;
        pi_on_fuzz_list := false; pi_on_robots := false; pi_code := 200 |};
   EvTimerStart 1].
Proof. reflexivity. Qed.

(** The crawl from the index page takes three cycles and the terminal one:
    the page, the archive it refers to, and a reference that cannot be
    fetched. *)
Example index_crawl :
  crawl 3 (Site.crawler [Site.index] 0) = None
  /\ (exists o,
         crawl 4 (Site.crawler [Site.index] 0) = Some o
         /\ res o = Ok tt
         /\ count is_get (emitted o) = 3%nat
         /\ count is_page_or_document (emitted o) = 2%nat
         /\ count is_exception_warning (emitted o) = 1%nat
         /\ count is_end (emitted o) = 1%nat).
Proof.
  split; [vm_compute; reflexivity|].
  eexists. split; [vm_compute; reflexivity|]. now repeat split.
Qed.

(** The archive of the site is recorded under the default configuration,
    which recognises [zip], and is not under [set_layout_only], which
    recognises no extension. *)
Example zip_gating :
  count is_page_or_document
    (emitted (crawl_next (Site.crawler [Site.archive] 0))) = 1%nat
  /\ count is_page_or_document
       (emitted (crawl_next
                   (Site.crawler_with (set_layout_only Site.cfg)
                      [Site.archive] 0))) = 0%nat.
Proof. split; reflexivity. Qed.

(** An empty delay list: the cycle ends in [IndexError]. *)
Example empty_delay_list :
  let cfg := set_default "Firefox" [] "/opt/arachnid" in
  res (crawl_next (Site.crawler_with cfg [Site.index] 0)) = Raise IndexError.
Proof. reflexivity. Qed.

(** ** Counting events *)

Lemma count_nil p : count p [] = 0%nat.
Proof. reflexivity. Qed.

Lemma count_cons p ev evs :
  count p (ev :: evs) = ((if p ev then 1 else 0) + count p evs)%nat.
Proof.
  unfold count. rewrite filter_cons.
  destruct (p ev); case_decide; simpl; congruence.
Qed.

Lemma count_app p evs1 evs2 :
  count p (evs1 ++ evs2) = (count p evs1 + count p evs2)%nat.
Proof. unfold count. now rewrite filter_app, length_app. Qed.

Lemma count_none p evs :
  Forall (fun ev => p ev = false) evs -> count p evs = 0%nat.
Proof.
  induction 1 as [|ev evs Hev _ IH]; [reflexivity|].
  rewrite count_cons, Hev, IH. reflexivity.
Qed.

(** ** Python strings *)

Module PyStrFacts.
Import PyStr.

Lemma lstrip_first s c : first_char (lstrip s) = Some c -> isspace c = false.
Proof.
  induction s as [|a s IH]; simpl; [discriminate|].
  destruct (isspace a) eqn:Ha; [exact IH|].
  simpl. intros [= <-]. exact Ha.
Qed.

Lemma rstrip_first s c :
  first_char s = Some c -> isspace c = false -> first_char (rstrip s) = Some c.
Proof.
  destruct s as [|a s]; simpl; [discriminate|].
  intros [= ->] Hc. destruct (rstrip s); [now rewrite Hc | reflexivity].
Qed.

Lemma rstrip_first_inv s c :
  first_char (rstrip s) = Some c -> first_char s = Some c.
Proof.
  destruct s as [|a s]; simpl; [discriminate|].
  destruct (rstrip s); [destruct (isspace a); [discriminate|]|]; simpl; congruence.
Qed.

Lemma rstrip_last s c : last_char (rstrip s) = Some c -> isspace c = false.
Proof.
  induction s as [|a s IH]; simpl; [discriminate|].
  destruct (rstrip s) as [|b r] eqn:Hr.
  - destruct (isspace a) eqn:Ha; simpl; [discriminate|]. intros [= <-]. exact Ha.
  - exact IH.
Qed.

(** [strip] leaves no whitespace at either end. *)
Lemma strip_ends s :
  (forall c, first_char (strip s) = Some c -> isspace c = false)
  /\ (forall c, last_char (strip s) = Some c -> isspace c = false).
Proof.
  unfold strip. split; intros c Hc.
  - apply (lstrip_first s), rstrip_first_inv, Hc.
  - apply (rstrip_last _ _ Hc).
Qed.




Lemma all_chars_app p s1 s2 :
  all_chars p (s1 +:+ s2) = all_chars p s1 && all_chars p s2.
Proof.
  induction s1 as [|a s1 IH]; simpl; [reflexivity|].
  now rewrite IH, andb_assoc.
Qed.

(** After [replace old new], no [old] is left, unless [new] brings one. *)
Lemma replace_none_left old new s :
  all_chars (fun c => negb (Ascii.eqb c old)) new = true ->
  all_chars (fun c => negb (Ascii.eqb c old)) (replace old new s) = true.
Proof.
  intros Hnew. induction s as [|a s IH]; simpl; [reflexivity|].
  destruct (Ascii.eqb a old) eqn:Ha.
  - now rewrite all_chars_app, Hnew, IH.
  - simpl. now rewrite Ha, IH.
Qed.

(** A string without [old] is left as it is. *)
Lemma replace_id old new s :
  all_chars (fun c => negb (Ascii.eqb c old)) s = true -> replace old new s = s.
Proof.
  induction s as [|a s IH]; simpl; [reflexivity|].
  destruct (Ascii.eqb a old); simpl; [discriminate|].
  intros H. now rewrite IH.
Qed.

End PyStrFacts.


(** ** Running the monad *)

Section Runs.
Context `{C : Collaborators}.
Implicit Types (s : Crawler) (c_url : CrawlerURL) (r : Response).

Lemma outcome_eta {A} (o : outcome A) : Outcome (res o) (post o) (emitted o) = o.
Proof. destruct o; reflexivity. Qed.

Lemma bind_run {A B} (m : M A) (k : A -> M B) s :
  (m ≫= k) s =
  match res (m s) with
  | Ok a =>
      Outcome (res (k a (post (m s)))) (post (k a (post (m s))))
              (emitted (m s) ++ emitted (k a (post (m s))))
  | Raise e => Outcome (Raise e) (post (m s)) (emitted (m s))
  end.
Proof. reflexivity. Qed.

Lemma try_except_run {A} (body : M A) handler s :
  try_except body handler s =
  match res (body s) with
  | Ok a => body s
  | Raise e =>
      Outcome (res (handler e (post (body s)))) (post (handler e (post (body s))))
              (emitted (body s) ++ emitted (handler e (post (body s))))
  end.
Proof. reflexivity. Qed.

Lemma bind_ok {A B} (m : M A) (k : A -> M B) s a s' evs :
  m s = Outcome (Ok a) s' evs ->
  (m ≫= k) s = Outcome (res (k a s')) (post (k a s')) (evs ++ emitted (k a s')).
Proof. intros H. rewrite bind_run, H. reflexivity. Qed.

Lemma bind_raise {A B} (m : M A) (k : A -> M B) s e s' evs :
  m s = Outcome (Raise e) s' evs -> (m ≫= k) s = Outcome (Raise e) s' evs.
Proof. intros H. rewrite bind_run, H. reflexivity. Qed.

Lemma set_schedule_id s : set_schedule (schedule s) s = s.
Proof. destruct s; reflexivity. Qed.

#[global] Instance only_schedule_refl : Reflexive only_schedule.
Proof. intros s. unfold only_schedule. symmetry. apply set_schedule_id. Qed.

#[global] Instance only_schedule_trans : Transitive only_schedule.
Proof.
  intros s x y Hx Hy. unfold only_schedule in *. rewrite Hy, Hx. reflexivity.
Qed.

Lemma only_schedule_config s s' : only_schedule s s' -> config s' = config s.
Proof. intros ->. reflexivity. Qed.

Lemma no_event_nil evs : Forall no_event evs -> evs = [].
Proof. destruct 1 as [|ev evs []]. reflexivity. Qed.

Section Keeps.
Context (Q : Crawler -> Crawler -> Prop) `{!Reflexive Q} `{!Transitive Q}.
Context (P : event -> Prop).

Lemma keeps_ret {A} (a : A) : keeps Q P (mret a).
Proof. intros s. simpl. split; [reflexivity | constructor]. Qed.

Lemma keeps_call {A} (x : result A) : keeps Q P (call x).
Proof. intros s. simpl. split; [reflexivity | constructor]. Qed.

Lemma keeps_emit ev : P ev -> keeps Q P (emit ev).
Proof. intros H s. simpl. split; [reflexivity | repeat constructor; exact H]. Qed.

Lemma keeps_self_config : keeps Q P self_config.
Proof. intros s. simpl. split; [reflexivity | constructor]. Qed.

Lemma keeps_bind {A B} (m : M A) (k : A -> M B) :
  keeps Q P m -> (forall a, keeps Q P (k a)) -> keeps Q P (m ≫= k).
Proof.
  intros Hm Hk s. rewrite bind_run.
  destruct (Hm s) as [Hpost Hev]. destruct (res (m s)) as [a|e]; simpl.
  - destruct (Hk a (post (m s))) as [Hpost' Hev']. split.
    + etransitivity; eassumption.
    + apply Forall_app; split; assumption.
  - split; assumption.
Qed.

Lemma keeps_try (body : M unit) handler :
  keeps Q P body -> (forall e, keeps Q P (handler e)) ->
  keeps Q P (try_except body handler).
Proof.
  intros Hm Hk s. rewrite try_except_run.
  destruct (Hm s) as [Hpost Hev]. destruct (res (body s)) as [a|e]; simpl.
  - split; assumption.
  - destruct (Hk e (post (body s))) as [Hpost' Hev']. split.
    + etransitivity; eassumption.
    + apply Forall_app; split; assumption.
Qed.

Lemma keeps_for_in {A S} (xs : list A) (body : A -> S -> M S) acc :
  (forall x acc', keeps Q P (body x acc')) -> keeps Q P (for_in xs body acc).
Proof.
  intros Hbody. revert acc.
  induction xs as [|x xs IH]; intros acc; simpl.
  - apply keeps_ret.
  - apply keeps_bind; [apply Hbody | intros acc'; apply IH].
Qed.

Lemma keeps_for_each {A} (xs : list A) (body : A -> M unit) :
  (forall x, keeps Q P (body x)) -> keeps Q P (for_each xs body).
Proof. intros H. apply keeps_for_in. intros x _. apply H. Qed.

End Keeps.

Lemma keeps_report P found :
  P (EvReportFoundUrls found) ->
  keeps only_schedule P (schedule_report_found_urls found).
Proof. intros H s. simpl. split; [reflexivity | repeat constructor; exact H]. Qed.

End Runs.

(** Decomposes a goal [keeps Q P m] along the structure of [m]; what is
    left are the conditions [P ev] on the events that [m] emits. *)
Ltac keep :=
  repeat first
    [ apply keeps_ret; try exact _
    | apply keeps_call; try exact _
    | apply keeps_self_config; try exact _
    | apply keeps_for_each; [try exact _ .. | intros]
    | apply keeps_for_in; [try exact _ .. | intros]
    | apply keeps_bind; [try exact _ .. | | intros]
    | apply keeps_try; [try exact _ .. | | intros]
    | apply keeps_emit; [try exact _ .. |]
    | apply keeps_report
    | match goal with
      | |- keeps _ _ (if ?b then _ else _) => destruct b
      | |- keeps _ _ (match ?x with _ => _ end) => destruct x
      end ].

(** One step of a run: the first call of a sequence is replaced by its
    outcome, which [tac] proves. *)
Ltac run_step tac := erewrite bind_ok by tac; cbn beta iota delta [fst snd].

Section Methods.
Context `{C : Collaborators}.
Implicit Types (s : Crawler) (c_url : CrawlerURL) (r : Response).

Lemma gather_signals_keeps cfg scraper :
  keeps eq (fun ev => is_signal ev = true) (gather_signals cfg scraper).
Proof. unfold gather_signals. keep; reflexivity. Qed.

Lemma gather_found_c_urls_keeps cfg scraper c_url :
  keeps eq no_event (gather_found_c_urls cfg scraper c_url).
Proof. unfold gather_found_c_urls. keep. Qed.

Lemma make_page_info_keeps cfg scraper r c_url path :
  keeps eq no_event (make_page_info cfg scraper r c_url path).
Proof. unfold make_page_info. keep. Qed.

(** A run that keeps the crawler and emits nothing is its result. *)
Lemma keeps_eq_no_event {A} (m : M A) s :
  keeps eq no_event m -> m s = Outcome (res (m s)) s [].
Proof.
  intros H. destruct (H s) as [Hpost Hev]. apply no_event_nil in Hev.
  rewrite <- (outcome_eta (m s)) at 1. now rewrite <- Hpost, Hev.
Qed.

Lemma keeps_eq_post {A} P (m : M A) s :
  keeps eq P m -> m s = Outcome (res (m s)) s (emitted (m s)).
Proof.
  intros H. destruct (H s) as [Hpost _].
  rewrite <- (outcome_eta (m s)) at 1. now rewrite <- Hpost.
Qed.

(** [_parse_page] goes one of the five ways of [parse_page_run]. *)
Lemma _parse_page_run r c_url s : parse_page_run r c_url s (_parse_page r c_url s).
Proof.
  unfold _parse_page, new_Scraper.
  rewrite !bind_run. simpl.
  destruct (Scraper_new (text r) "html.parser") as [scraper|e] eqn:Hnew; simpl.
  2: { now apply scraper_raises. }
  pose proof (keeps_eq_post _ _ s (gather_signals_keeps (config s) scraper)) as Hsig.
  destruct (res (gather_signals (config s) scraper s)) as [[]|e].
  2: { rewrite (bind_raise _ _ _ _ _ _ Hsig). simpl. eapply signals_raise; eauto. }
  rewrite (bind_ok _ _ _ _ _ _ Hsig). simpl.
  pose proof (keeps_eq_no_event _ s
                (gather_found_c_urls_keeps (config s) scraper c_url)) as Hfound.
  destruct (res (gather_found_c_urls (config s) scraper c_url s)) as [found|e].
  2: { rewrite (bind_raise _ _ _ _ _ _ Hfound). simpl. rewrite app_nil_r.
       eapply links_raise; eauto. }
  rewrite (bind_ok _ _ _ _ _ _ Hfound). simpl.
  rewrite !bind_run. simpl. fold (reported found s).
  pose proof (keeps_eq_no_event _ (reported found s)
                (make_page_info_keeps (config s) scraper r c_url
                   (get_url_parts_path c_url))) as Hinfo.
  destruct (res (make_page_info (config s) scraper r c_url
                   (get_url_parts_path c_url) (reported found s)))
    as [page_info|e]; rewrite Hinfo; simpl.
  - eapply page_recorded; eauto.
  - eapply page_info_raises; eauto.
Qed.



(** The document parser answers with a non-empty record exactly on the
    recognised extensions. *)
Lemma DocumentResponse_extract_recognised r docs :
  response_extension r ∈ docs ->
  exists data, DocumentResponse_extract r docs = Some data /\ data <> ∅
               /\ is_Some (data !! "size") /\ is_Some (data !! "type").
Proof.
  intros Hin. unfold DocumentResponse_extract.
  destruct (decide (response_extension r ∈ docs)); [|contradiction].
  eexists. split; [reflexivity|]. split; [apply insert_non_empty|].
  split; eexists.
  - apply lookup_insert_eq.
  - rewrite lookup_insert_ne by discriminate. apply lookup_insert_eq.
Qed.

Lemma DocumentResponse_extract_other r docs :
  response_extension r ∉ docs -> DocumentResponse_extract r docs = None.
Proof.
  intros Hin. unfold DocumentResponse_extract.
  destruct (decide (response_extension r ∈ docs)); [contradiction | reflexivity].
Qed.

(** The events of [_parse_document] after the parser was built and the
    empty list reported: the record, if [data] is true. *)
Lemma _parse_document_run r c_url s :
  _parse_document r c_url s =
  Outcome (Ok tt) (reported [] s)
    ([EvDocumentResponse r (documents (config s)); EvReportFoundUrls []]
       ++ match DocumentResponse_extract r (documents (config s)) with
          | Some data =>
              if decide (data = ∅) then []
              else [EvAddDocument (get_netloc c_url)
                      (<["path" := get_url_parts_path c_url]> data)]
          | None => []
          end).
Proof.
  unfold _parse_document, new_DocumentResponse_extract.
  rewrite !bind_run. simpl.
  destruct (DocumentResponse_extract r (documents (config s))) as [data|]; simpl.
  - destruct (decide (data = ∅)); reflexivity.
  - reflexivity.
Qed.

(** The events of [_parse_page]: the scraper is built first and once;
    what follows are records and at most the report of the links. *)
Lemma _parse_page_events r c_url s :
  exists evs,
    emitted (_parse_page r c_url s) = EvScraper (text r) "html.parser" :: evs
    /\ Forall (fun ev => is_record ev = true \/ is_report ev = true) evs.
Proof.
  assert (Hsig : forall scraper res_ signals,
             gather_signals (config s) scraper s = Outcome res_ s signals ->
             Forall (fun ev => is_record ev = true \/ is_report ev = true) signals).
  { intros scraper res_ signals Heq.
    destruct (gather_signals_keeps (config s) scraper s) as [_ Hev].
    rewrite Heq in Hev. eapply Forall_impl; [exact Hev|].
    intros ev Hev'. left. unfold is_record. now rewrite Hev'. }
  destruct (_parse_page_run r c_url s); eexists; (split; [reflexivity|]).
  - constructor.
  - eauto.
  - eauto.
  - apply Forall_app. split; [eauto|].
    apply Forall_cons_2; [now right | apply Forall_nil_2].
  - apply Forall_app. split; [eauto|].
    apply Forall_cons_2; [now right|].
    apply Forall_cons_2; [now left | apply Forall_nil_2].
Qed.

(** The shape of the events of [_parse_page]: the scraper, the signals,
    and a tail that holds the report and the page record when the page was
    parsed to the end, and no page record otherwise. *)
Lemma _parse_page_shape r c_url s :
  exists signals tail,
    emitted (_parse_page r c_url s)
    = EvScraper (text r) "html.parser" :: signals ++ tail
    /\ Forall (fun ev => is_signal ev = true) signals
    /\ match res (_parse_page r c_url s) with
       | Ok _ =>
           exists found page_info,
             tail = [EvReportFoundUrls found;
                     EvAddPage (get_netloc c_url) page_info]
       | Raise _ => tail = [] \/ exists found, tail = [EvReportFoundUrls found]
       end.
Proof.
  assert (Hsig : forall scraper res_ signals,
             gather_signals (config s) scraper s = Outcome res_ s signals ->
             Forall (fun ev => is_signal ev = true) signals).
  { intros scraper res_ signals Heq.
    destruct (gather_signals_keeps (config s) scraper s) as [_ Hev].
    now rewrite Heq in Hev. }
  destruct (_parse_page_run r c_url s)
    as [e Hnew|scraper signals e Hnew Hs|scraper signals e Hnew Hs Hf
        |scraper signals found e Hnew Hs Hf Hi
        |scraper signals found page_info Hnew Hs Hf Hi];
    cbn [emitted res].
  - exists [], []. repeat split; [constructor | now left].
  - exists signals, []. rewrite app_nil_r. repeat split; eauto.
  - exists signals, []. rewrite app_nil_r. repeat split; eauto.
  - exists signals, [EvReportFoundUrls found]. repeat split; eauto.
  - exists signals, [EvReportFoundUrls found; EvAddPage (get_netloc c_url) page_info].
    repeat split; eauto.
Qed.

(** A page whose parsing raised left no page record. *)
Lemma _parse_page_raises_no_record r c_url s e :
  res (_parse_page r c_url s) = Raise e ->
  count is_page_or_document (emitted (_parse_page r c_url s)) = 0%nat.
Proof.
  intros Hres.
  destruct (_parse_page_shape r c_url s) as (signals & tail & -> & Hsig & Htail).
  rewrite Hres in Htail.
  rewrite count_cons, count_app. cbn [is_page_or_document].
  rewrite (count_none is_page_or_document signals)
    by (eapply Forall_impl; [exact Hsig|]; now intros []).
  destruct Htail as [->|[found ->]]; reflexivity.
Qed.

End Methods.

(** ** One cycle *)

Section Cycle.
Context `{C : Collaborators}.
Implicit Types (s : Crawler) (c_url : CrawlerURL) (r : Response).

Lemma max_as_written (a b : Z) : (if a >? b then a else b) = Z.max a b.
Proof. destruct (Z.gtb_spec a b); lia. Qed.

Lemma random_index_in_range (seq : list Z) (n : nat) :
  seq <> [] -> is_Some (seq !! (n mod length seq)%nat).
Proof.
  intros Hne. apply lookup_lt_is_Some_2, Nat.mod_upper_bound.
  destruct seq; [contradiction | discriminate].
Qed.

Lemma random_choice_run (seq : list Z) s x :
  seq !! (random_stream (random_draws s) mod length seq)%nat = Some x ->
  random_choice seq s = Outcome (Ok x) (set_random_draws (S (random_draws s)) s) [].
Proof. intros H. unfold random_choice. now rewrite H. Qed.

(** [_update_crawl_delay] on a non-empty delay list: one draw, and the new
    timer holds the larger of the sample and the scheduler's delay. *)
Lemma _update_crawl_delay_run s :
  default_delay (config s) <> [] ->
  exists sample,
    default_delay (config s)
      !! (random_stream (random_draws s) mod length (default_delay (config s)))%nat
    = Some sample
    /\ _update_crawl_delay s =
       Outcome (Ok tt)
         (set_delay_sw
            {| duration := Z.max sample (get_crawl_delay (schedule s)) |}
            (set_random_draws (S (random_draws s)) s))
         [].
Proof.
  intros Hne.
  destruct (random_index_in_range _ (random_stream (random_draws s)) Hne)
    as [sample Hsample].
  exists sample. split; [exact Hsample|].
  unfold _update_crawl_delay.
  erewrite bind_ok by reflexivity. simpl.
  erewrite bind_ok by (apply random_choice_run, Hsample). simpl.
  now rewrite max_as_written.
Qed.

(** On an empty delay list [random.choice] raises. *)
Lemma _update_crawl_delay_empty s :
  default_delay (config s) = [] ->
  _update_crawl_delay s = Outcome (Raise IndexError) s [].
Proof.
  intros Hnil. unfold _update_crawl_delay.
  erewrite bind_ok by reflexivity. simpl.
  erewrite bind_raise by (unfold random_choice; now rewrite Hnil).
  reflexivity.
Qed.

Lemma fetch_and_parse_keeps c_url :
  keeps only_schedule (fun ev => is_fetch_event ev = true) (fetch_and_parse c_url).
Proof.
  unfold fetch_and_parse, parse_response, _parse_page, _parse_document,
    new_Scraper, new_DocumentResponse_extract, gather_signals,
    gather_found_c_urls, make_page_info.
  keep; reflexivity.
Qed.

(** The [try] statement of [crawl_next]: the body, and on an exception the
    warning and the empty report. *)
Lemma try_run c_url s :
  try_except (fetch_and_parse c_url) (on_exception c_url) s =
  match res (fetch_and_parse c_url s) with
  | Ok _ => fetch_and_parse c_url s
  | Raise e =>
      Outcome (Ok tt) (reported [] (post (fetch_and_parse c_url s)))
        (emitted (fetch_and_parse c_url s)
           ++ [EvExceptionWarning e (get_url c_url); EvReportFoundUrls []])
  end.
Proof. rewrite try_except_run. destruct (res _); reflexivity. Qed.

Lemma try_ok c_url s :
  res (try_except (fetch_and_parse c_url) (on_exception c_url) s) = Ok tt.
Proof.
  rewrite try_run. destruct (res (fetch_and_parse c_url s)) as [[]|e] eqn:H.
  - exact H.
  - reflexivity.
Qed.

Lemma try_only_schedule c_url s :
  only_schedule s (post (try_except (fetch_and_parse c_url) (on_exception c_url) s)).
Proof.
  rewrite try_run. destruct (fetch_and_parse_keeps c_url s) as [Hpost _].
  destruct (res (fetch_and_parse c_url s)); [exact Hpost|].
  simpl. etransitivity; [exact Hpost|]. reflexivity.
Qed.

(** The fetch fails: nothing after [requests.get] runs. *)
Lemma fetch_raises c_url s e :
  requests_get (get_url c_url) (agent (config s)) 30 = Raise e ->
  fetch_and_parse c_url s =
  Outcome (Raise e) s [EvGet (get_url c_url) (agent (config s)) 30].
Proof.
  intros Hget. unfold fetch_and_parse. rewrite !bind_run. simpl.
  rewrite Hget. reflexivity.
Qed.

(** The fetch returns: the status code goes to the warning issuer, then
    the response is parsed. *)
Lemma fetch_returns c_url s r :
  requests_get (get_url c_url) (agent (config s)) 30 = Ok r ->
  fetch_and_parse c_url s =
  Outcome (res (parse_response r c_url s)) (post (parse_response r c_url s))
    (EvGet (get_url c_url) (agent (config s)) 30
       :: EvStatusWarning (status_code r) (get_url c_url)
       :: emitted (parse_response r c_url s)).
Proof.
  intros Hget. unfold fetch_and_parse. rewrite !bind_run. simpl.
  rewrite Hget. simpl.
  destruct (res (parse_response r c_url s)); reflexivity.
Qed.

(** The terminal cycle. *)
Lemma crawl_next_finished s sch :
  next_url (schedule s) = (None, sch) ->
  crawl_next s = Outcome (Ok false) (set_schedule sch s) [EvEnd].
Proof.
  intros Hnext. unfold crawl_next, schedule_next_url.
  rewrite bind_run. simpl. rewrite Hnext. reflexivity.
Qed.

(** Every other cycle, on a non-empty delay list: the events are those of
    the [try] statement between the wait and the restart of the timer. *)
Lemma crawl_next_cycle s c_url sch :
  next_url (schedule s) = (Some c_url, sch) ->
  default_delay (config s) <> [] ->
  exists sample,
    default_delay (config s)
      !! (random_stream (random_draws s) mod length (default_delay (config s)))%nat
    = Some sample
    /\ crawl_next s =
       let handled :=
         try_except (fetch_and_parse c_url) (on_exception c_url)
           (set_schedule sch s) in
       let d := Z.max sample (get_crawl_delay (schedule (post handled))) in
       Outcome (Ok true)
         (set_delay_sw {| duration := d |}
            (set_random_draws (S (random_draws s)) (post handled)))
         (EvPrint c_url :: EvTimerWait (duration (delay_sw s))
            :: emitted handled ++ [EvTimerStart d]).
Proof.
  intros Hnext Hne.
  pose proof (try_ok c_url (set_schedule sch s)) as Hok.
  pose proof (try_only_schedule c_url (set_schedule sch s)) as Hpost.
  pose proof (outcome_eta
                (try_except (fetch_and_parse c_url) (on_exception c_url)
                   (set_schedule sch s))) as Hh.
  rewrite Hok in Hh. symmetry in Hh.
  remember (post (try_except (fetch_and_parse c_url) (on_exception c_url)
                    (set_schedule sch s))) as s1 eqn:Hs1.
  assert (Hcfg : config s1 = config s)
    by now rewrite (only_schedule_config _ _ Hpost).
  assert (Hdraws : random_draws s1 = random_draws s) by now rewrite Hpost.
  destruct (_update_crawl_delay_run s1) as (sample & Hsample & Hrun).
  { now rewrite Hcfg. }
  rewrite Hcfg, Hdraws in Hsample. rewrite Hdraws in Hrun.
  exists sample. split; [exact Hsample|].
  unfold crawl_next.
  run_step ltac:(unfold schedule_next_url; now rewrite Hnext).
  run_step ltac:(reflexivity). run_step ltac:(reflexivity).
  run_step ltac:(exact Hh).
  run_step ltac:(exact Hrun). simpl.
  now rewrite <- Hs1.
Qed.

(** On an empty delay list the cycle ends in the [IndexError] of
    [random.choice], after the [try] statement has run. *)
Lemma crawl_next_cycle_empty s c_url sch :
  next_url (schedule s) = (Some c_url, sch) ->
  default_delay (config s) = [] ->
  crawl_next s =
  let handled :=
    try_except (fetch_and_parse c_url) (on_exception c_url)
      (set_schedule sch s) in
  Outcome (Raise IndexError) (post handled)
    (EvPrint c_url :: EvTimerWait (duration (delay_sw s)) :: emitted handled).
Proof.
  intros Hnext Hnil.
  pose proof (try_ok c_url (set_schedule sch s)) as Hok.
  pose proof (try_only_schedule c_url (set_schedule sch s)) as Hpost.
  pose proof (outcome_eta
                (try_except (fetch_and_parse c_url) (on_exception c_url)
                   (set_schedule sch s))) as Hh.
  rewrite Hok in Hh. symmetry in Hh.
  remember (post (try_except (fetch_and_parse c_url) (on_exception c_url)
                    (set_schedule sch s))) as s1 eqn:Hs1.
  assert (Hcfg : config s1 = config s)
    by now rewrite (only_schedule_config _ _ Hpost).
  unfold crawl_next.
  run_step ltac:(unfold schedule_next_url; now rewrite Hnext).
  run_step ltac:(reflexivity). run_step ltac:(reflexivity).
  run_step ltac:(exact Hh).
  erewrite bind_raise by (apply _update_crawl_delay_empty; now rewrite Hcfg).
  cbv zeta. cbn [res post emitted app]. now rewrite <- Hs1, app_nil_r.
Qed.

Lemma parse_response_keeps r c_url :
  keeps only_schedule (fun ev => is_parse_event ev = true) (parse_response r c_url).
Proof.
  unfold parse_response, _parse_page, _parse_document,
    new_Scraper, new_DocumentResponse_extract, gather_signals,
    gather_found_c_urls, make_page_info.
  keep; reflexivity.
Qed.

(** Which parser [parse_response] builds is read off the headers alone. *)
Lemma parse_response_parsers r c_url s :
  let html :=
    match headers r !! "content-type" with
    | Some content_type => PyStr.contains "text/html" content_type
    | None => false
    end in
  let document :=
    match headers r !! "content-type" with
    | Some content_type => negb (PyStr.contains "text/html" content_type)
    | None => false
    end in
  count is_html_parser (emitted (parse_response r c_url s))
  = (if html then 1 else 0)%nat
  /\ count is_document_parser (emitted (parse_response r c_url s))
     = (if document then 1 else 0)%nat.
Proof.
  cbv zeta. unfold parse_response.
  destruct (headers r !! "content-type") as [content_type|]; [|now split].
  destruct (PyStr.contains "text/html" content_type); cbn [negb].
  - destruct (_parse_page_events r c_url s) as (evs & -> & Hall).
    rewrite !count_cons. cbn [is_html_parser is_document_parser].
    split; rewrite count_none; try reflexivity;
      (eapply Forall_impl; [exact Hall|]); now intros [] [|].
  - rewrite _parse_document_run. cbn [emitted app].
    rewrite !count_cons. cbn [is_html_parser is_document_parser].
    destruct (DocumentResponse_extract r (documents (config s))) as [data|];
      [destruct (decide (data = ∅))|]; now split.
Qed.

(** A response whose parsing raised left no page or document record. *)
Lemma parse_response_raises_no_record r c_url s e :
  res (parse_response r c_url s) = Raise e ->
  count is_page_or_document (emitted (parse_response r c_url s)) = 0%nat.
Proof.
  unfold parse_response.
  destruct (headers r !! "content-type") as [content_type|]; [|discriminate].
  destruct (PyStr.contains "text/html" content_type).
  - apply _parse_page_raises_no_record.
  - rewrite _parse_document_run. discriminate.
Qed.

End Cycle.

(** ** The whole crawl *)

Section Crawl.
Context `{C : Collaborators}.
Implicit Types (s : Crawler) (c_url : CrawlerURL) (r : Response).

(** The [try] statement emits the events of the fetch, and on an exception
    the warning and the empty report: never [end()]. *)
Lemma try_no_end c_url s :
  Forall (fun ev => is_end ev = false)
    (emitted (try_except (fetch_and_parse c_url) (on_exception c_url) s)).
Proof.
  assert (Hbody : Forall (fun ev => is_end ev = false)
                    (emitted (fetch_and_parse c_url s))).
  { destruct (fetch_and_parse_keeps c_url s) as [_ Hev].
    eapply Forall_impl; [exact Hev|]. now intros []. }
  rewrite try_run. destruct (res (fetch_and_parse c_url s)); [exact Hbody|].
  cbn [emitted]. apply Forall_app. split; [exact Hbody|]. now repeat constructor.
Qed.

(** What one call of [crawl_next] does on a non-empty delay list: the
    terminal cycle, or a cycle that answers [True], keeps the configuration
    and never calls [end()]. *)
Lemma crawl_next_total s :
  default_delay (config s) <> [] ->
  (exists sch,
      next_url (schedule s) = (None, sch)
      /\ crawl_next s = Outcome (Ok false) (set_schedule sch s) [EvEnd])
  \/ (exists c_url sch,
         next_url (schedule s) = (Some c_url, sch)
         /\ res (crawl_next s) = Ok true
         /\ config (post (crawl_next s)) = config s
         /\ Forall (fun ev => is_end ev = false) (emitted (crawl_next s))).
Proof.
  intros Hne. destruct (next_url (schedule s)) as [[c_url|] sch] eqn:Hnext.
  - right. exists c_url, sch. split; [reflexivity|].
    destruct (crawl_next_cycle s c_url sch Hnext Hne) as (sample & _ & ->).
    cbv zeta. simpl. split; [reflexivity|]. split.
    + now rewrite (only_schedule_config _ _ (try_only_schedule c_url _)).
    + repeat constructor. apply Forall_app. split; [apply try_no_end|].
      now repeat constructor.
  - left. exists sch. split; [reflexivity|]. now apply crawl_next_finished.
Qed.

(** A call that answers [True] was not the terminal one, and found a
    delay to sample. *)
Lemma crawl_next_true s :
  res (crawl_next s) = Ok true ->
  default_delay (config s) <> []
  /\ exists c_url sch, next_url (schedule s) = (Some c_url, sch).
Proof.
  intros Hres. destruct (next_url (schedule s)) as [[c_url|] sch] eqn:Hnext.
  - split; [|eauto]. intros Hnil.
    rewrite (crawl_next_cycle_empty s c_url sch Hnext Hnil) in Hres. discriminate.
  - rewrite (crawl_next_finished s sch Hnext) in Hres. discriminate.
Qed.

(** More fuel does not change a crawl that ended. *)
Lemma crawl_fuel_mono fuel fuel' s o :
  crawl fuel s = Some o -> (fuel <= fuel')%nat -> crawl fuel' s = Some o.
Proof.
  revert fuel' s o. induction fuel as [|fuel IH]; intros fuel' s o; [discriminate|].
  intros Hrun Hle. destruct fuel' as [|fuel']; [lia|]. cbn [crawl] in *.
  destruct (res (crawl_next s)) as [[]|e]; try exact Hrun.
  destruct (crawl fuel (post (crawl_next s))) as [o'|] eqn:Hrest; [|discriminate].
  rewrite (IH fuel' _ o' Hrest) by lia. exact Hrun.
Qed.

(** A crawl that ended normally ended in the terminal cycle, and that cycle
    holds its only call of [end()]. *)
Lemma crawl_ends_once fuel s o :
  crawl fuel s = Some o -> res o = Ok tt ->
  exists cycles s_last sch,
    next_url (schedule s_last) = (None, sch)
    /\ post o = set_schedule sch s_last
    /\ emitted o = cycles ++ [EvEnd]
    /\ count is_end cycles = 0%nat.
Proof.
  revert s o. induction fuel as [|fuel IH]; intros s o; [discriminate|].
  cbn [crawl]. destruct (res (crawl_next s)) as [[]|e] eqn:Hres.
  - destruct (crawl fuel (post (crawl_next s))) as [o'|] eqn:Hrest; [|discriminate].
    intros [= <-] Hok. cbn [res post emitted] in *.
    destruct (IH _ _ Hrest Hok) as (cycles & s_last & sch & Hnext & Hpost & Hev & Hcount).
    destruct (crawl_next_true s Hres) as [Hne _].
    destruct (crawl_next_total s Hne) as [(sch' & _ & Hrun)|(c & sch' & _ & _ & _ & Hno)].
    { rewrite Hrun in Hres. discriminate. }
    exists (emitted (crawl_next s) ++ cycles), s_last, sch.
    repeat split; try assumption.
    + now rewrite Hev, app_assoc.
    + now rewrite count_app, Hcount, (count_none _ _ Hno).
  - destruct (next_url (schedule s)) as [[c_url|] sch] eqn:Hnext.
    + destruct (default_delay (config s)) as [|d0 ds] eqn:Hd.
      * rewrite (crawl_next_cycle_empty s c_url sch Hnext Hd) in Hres. discriminate.
      * destruct (crawl_next_cycle s c_url sch Hnext) as (sample & _ & Hrun).
        { rewrite Hd. discriminate. }
        rewrite Hrun in Hres. discriminate.
    + rewrite (crawl_next_finished s sch Hnext). intros [= <-] _.
      exists [], s, sch. repeat split; assumption || reflexivity.
  - intros [= <-]. discriminate.
Qed.

(** On a non-empty delay list a crawl never stops on an exception. *)
Lemma crawl_never_raises fuel s o :
  default_delay (config s) <> [] -> crawl fuel s = Some o -> res o = Ok tt.
Proof.
  revert s o. induction fuel as [|fuel IH]; intros s o Hne; [discriminate|].
  cbn [crawl].
  destruct (crawl_next_total s Hne)
    as [(sch & _ & ->)|(c & sch & _ & -> & Hcfg & _)]; cbn [res post emitted].
  - now intros [= <-].
  - destruct (crawl fuel (post (crawl_next s))) as [o'|] eqn:Hrest; [|discriminate].
    intros [= <-]. cbn [res]. apply (IH _ _ (ltac:(now rewrite Hcfg)) Hrest).
Qed.

(** A frontier that becomes exhausted ends the crawl: one call more than
    the fetching cycles is all the fuel it takes. *)
Lemma crawl_reaches_end n s :
  default_delay (config s) <> [] ->
  exhausts n s ->
  exists o, crawl (S n) s = Some o /\ res o = Ok tt.
Proof.
  revert s. induction n as [|n IH]; intros s Hne Hex; cbn [exhausts] in Hex.
  - destruct (next_url (schedule s)) as [c sch] eqn:Hnext.
    cbn [fst] in Hex. subst c. cbn [crawl].
    rewrite (crawl_next_finished s sch Hnext). cbn [res]. eauto.
  - destruct Hex as [Hsome Hex].
    destruct (crawl_next_total s Hne)
      as [(sch & Hnext & _)|(c & sch & _ & Hres & Hcfg & _)].
    { rewrite Hnext in Hsome. now contradiction Hsome. }
    destruct (IH (post (crawl_next s)) ltac:(now rewrite Hcfg) Hex)
      as (o & Hrun & Hok).
    change (crawl (S (S n)) s)
      with (match res (crawl_next s) with
            | Ok true =>
                match crawl (S n) (post (crawl_next s)) with
                | Some o' =>
                    Some (Outcome (res o') (post o')
                            (emitted (crawl_next s) ++ emitted o'))
                | None => None
                end
            | Ok false =>
                Some (Outcome (Ok tt) (post (crawl_next s))
                        (emitted (crawl_next s)))
            | Raise e =>
                Some (Outcome (Raise e) (post (crawl_next s))
                        (emitted (crawl_next s)))
            end).
    rewrite Hres, Hrun. eexists. split; [reflexivity | exact Hok].
Qed.

End Crawl.

(** * The claims *)

(** C1.  In every cycle that fetches a URL the timer is rebuilt with the
    larger of two delays: a sample freshly drawn from the configured delay
    list and the delay the scheduler answers at that moment.  The delay
    used is at least both and is one of the two, for every delay list that
    has an element and every scheduler; the timer is then started with
    it. *)
Theorem crawl_delay_is_max `{C : Collaborators} (s : Crawler) c_url sch :
  next_url (schedule s) = (Some c_url, sch) ->
  default_delay (config s) <> [] ->
  exists sample,
    let o := crawl_next s in
    let d := duration (delay_sw (post o)) in
    let s_delay := get_crawl_delay (schedule (post o)) in
    default_delay (config s)
      !! (random_stream (random_draws s) mod length (default_delay (config s)))%nat
    = Some sample
    /\ sample ∈ default_delay (config s)
    /\ random_draws (post o) = S (random_draws s)
    /\ res o = Ok true
    /\ d = Z.max sample s_delay
    /\ sample <= d /\ s_delay <= d /\ (d = sample \/ d = s_delay)
    /\ last (emitted o) = Some (EvTimerStart d).
Proof.
  intros Hnext Hne.
  destruct (crawl_next_cycle s c_url sch Hnext Hne) as (sample & Hsample & ->).
  exists sample. cbv zeta. cbn [res post emitted].
  split; [exact Hsample|].
  split; [eapply list_elem_of_lookup_2, Hsample|].
  split; [reflexivity|]. split; [reflexivity|].
  cbn [delay_sw set_delay_sw duration schedule set_random_draws].
  split; [reflexivity|].
  repeat split; try lia.
  rewrite !app_comm_cons. apply last_snoc.
Qed.

(** The rule of C1 at work: the first draw from the list [0; 2; 5] is 0,
    the robots delay of the site is 1, and the timer is started with 1. *)
Lemma crawl_delay_is_max_witness :
  exists sample,
    let o := crawl_next (Site.crawler [Site.index] 1) in
    let d := duration (delay_sw (post o)) in
    let s_delay := get_crawl_delay (schedule (post o)) in
    [0; 2; 5] !! (0 mod 3)%nat = Some sample
    /\ sample ∈ [0; 2; 5]
    /\ random_draws (post o) = 1%nat
    /\ res o = Ok true
    /\ d = Z.max sample s_delay
    /\ sample <= d /\ s_delay <= d /\ (d = sample \/ d = s_delay)
    /\ last (emitted o) = Some (EvTimerStart d).
Proof.
  apply (crawl_delay_is_max (Site.crawler [Site.index] 1) Site.index
           {| Site.pending := []; Site.robots_delay := 1 |}).
  - reflexivity.
  - discriminate.
Defined.

(** C2.  When [requests.get] raises for the dequeued URL, whatever the
    exception, the cycle consists of the wait, the request, one warning
    that carries the exception and the URL, one call
    [report_found_urls([])], and the restart of the timer; no parser runs
    and nothing is recorded; [crawl_next] answers [True].  The delay list
    of the configuration has an element, as in every cycle that gets to
    its end. *)
Theorem transport_failure_is_warned `{C : Collaborators} (s : Crawler)
    c_url sch e :
  next_url (schedule s) = (Some c_url, sch) ->
  requests_get (get_url c_url) (agent (config s)) 30 = Raise e ->
  default_delay (config s) <> [] ->
  let o := crawl_next s in
  res o = Ok true
  /\ schedule (post o) = report_found_urls [] sch
  /\ exists d,
       emitted o =
       [EvPrint c_url;
        EvTimerWait (duration (delay_sw s));
        EvGet (get_url c_url) (agent (config s)) 30;
        EvExceptionWarning e (get_url c_url);
        EvReportFoundUrls [];
        EvTimerStart d].
Proof.
  intros Hnext Hget Hne.
  destruct (crawl_next_cycle s c_url sch Hnext Hne) as (sample & _ & ->).
  rewrite try_run, (fetch_raises c_url (set_schedule sch s) e Hget).
  cbv zeta. cbn [res post emitted]. repeat split. eexists. reflexivity.
Qed.

(** C2 on the site: its URL [/down] refuses the connection. *)
Lemma transport_failure_is_warned_witness :
  let o := crawl_next (Site.crawler [Site.down] 1) in
  res o = Ok true
  /\ schedule (post o) = Site.push [] {| Site.pending := []; Site.robots_delay := 1 |}
  /\ exists d,
       emitted o =
       [EvPrint Site.down;
        EvTimerWait 0;
        EvGet "http://x.test/down" "Firefox" 30;
        EvExceptionWarning Site.ConnectionError "http://x.test/down";
        EvReportFoundUrls [];
        EvTimerStart d].
Proof.
  apply (transport_failure_is_warned (Site.crawler [Site.down] 1) Site.down
           {| Site.pending := []; Site.robots_delay := 1 |} Site.ConnectionError).
  - reflexivity.
  - reflexivity.
  - discriminate.
Defined.

(** C3.  When [next_url()] answers [None], [crawl_next] does one thing: it
    calls [finish], that is [end()] on the output, and answers [False]; no
    request, no parser, no report to the scheduler.  A frontier that
    becomes exhausted ends the crawl, and a crawl that ends, ends in such
    a cycle, which holds the only call of [end()] of the whole crawl. *)
Theorem exhausted_frontier_ends_once `{C : Collaborators} (s : Crawler) :
  (forall s' sch',
      next_url (schedule s') = (None, sch') ->
      crawl_next s' = Outcome (Ok false) (set_schedule sch' s') [EvEnd])
  /\ (forall n,
         default_delay (config s) <> [] ->
         exhausts n s ->
         exists o,
           crawl (S n) s = Some o /\ res o = Ok tt
           /\ count is_end (emitted o) = 1%nat)
  /\ (forall fuel o,
         crawl fuel s = Some o ->
         res o = Ok tt ->
         exists cycles s_last sch,
           next_url (schedule s_last) = (None, sch)
           /\ post o = set_schedule sch s_last
           /\ emitted o = cycles ++ emitted (crawl_next s_last)
           /\ emitted (crawl_next s_last) = [EvEnd]
           /\ count is_end cycles = 0%nat
           /\ count is_end (emitted o) = 1%nat).
Proof.
  assert (Hends : forall fuel o,
             crawl fuel s = Some o ->
             res o = Ok tt ->
             exists cycles s_last sch,
               next_url (schedule s_last) = (None, sch)
               /\ post o = set_schedule sch s_last
               /\ emitted o = cycles ++ emitted (crawl_next s_last)
               /\ emitted (crawl_next s_last) = [EvEnd]
               /\ count is_end cycles = 0%nat
               /\ count is_end (emitted o) = 1%nat).
  { intros fuel o Hrun Hok.
    destruct (crawl_ends_once fuel s o Hrun Hok)
      as (cycles & s_last & sch & Hnext & Hpost & Hev & Hcount).
    exists cycles, s_last, sch.
    rewrite (crawl_next_finished s_last sch Hnext). cbn [emitted].
    repeat split; try assumption.
    now rewrite Hev, count_app, Hcount. }
  split; [intros s' sch'; apply crawl_next_finished|]. split; [|exact Hends].
  intros n Hne Hex.
  destruct (crawl_reaches_end n s Hne Hex) as (o & Hrun & Hok).
  exists o. split; [exact Hrun|]. split; [exact Hok|].
  destruct (Hends _ _ Hrun Hok) as (? & ? & ? & _ & _ & _ & _ & _ & Hone).
  exact Hone.
Qed.

(** C3 on the site: after [/bare] and [/down] the queue is empty, the
    third call ends the crawl, and [end()] is called once. *)
Lemma exhausted_frontier_ends_once_witness :
  exists o,
    crawl 3 (Site.crawler [Site.bare; Site.down] 1) = Some o
    /\ res o = Ok tt
    /\ count is_end (emitted o) = 1%nat.
Proof.
  apply (proj1 (proj2 (exhausted_frontier_ends_once
                         (Site.crawler [Site.bare; Site.down] 1))) 2%nat).
  - discriminate.
  - cbn [exhausts]. split; [discriminate|]. split; [discriminate|]. reflexivity.
Defined.



(** C5.  A failure while a response is parsed stays inside its cycle: what
    was emitted before it stays, the response gets no page or document
    record, the exception becomes one warning and one empty report, and
    [crawl_next] answers [True].  With a delay list that has an element,
    no call of [crawl_next] ends in an exception, and a crawl that stops
    has stopped in the terminal cycle, on [next_url()] answering [None]. *)
Theorem parse_failure_is_contained `{C : Collaborators} (s : Crawler) :
  default_delay (config s) <> [] ->
  (forall c_url sch r e,
      next_url (schedule s) = (Some c_url, sch) ->
      requests_get (get_url c_url) (agent (config s)) 30 = Ok r ->
      res (parse_response r c_url (set_schedule sch s)) = Raise e ->
      res (crawl_next s) = Ok true
      /\ count is_page_or_document (emitted (crawl_next s)) = 0%nat
      /\ exists d,
           emitted (crawl_next s) =
           [EvPrint c_url;
            EvTimerWait (duration (delay_sw s));
            EvGet (get_url c_url) (agent (config s)) 30;
            EvStatusWarning (status_code r) (get_url c_url)]
           ++ emitted (parse_response r c_url (set_schedule sch s))
           ++ [EvExceptionWarning e (get_url c_url);
               EvReportFoundUrls [];
               EvTimerStart d])
  /\ (exists b, res (crawl_next s) = Ok b)
  /\ (forall fuel o,
         crawl fuel s = Some o ->
         res o = Ok tt /\ last (emitted o) = Some EvEnd).
Proof.
  intros Hne. split; [|split].
  - intros c_url sch r e Hnext Hget Hraise.
    destruct (crawl_next_cycle s c_url sch Hnext Hne) as (sample & _ & ->).
    rewrite try_run, (fetch_returns c_url (set_schedule sch s) r Hget).
    cbv zeta. cbn [res post emitted]. rewrite Hraise. cbn [res post emitted].
    split; [reflexivity|]. split.
    + rewrite !count_cons, !count_app, !count_cons, count_nil.
      rewrite (parse_response_raises_no_record _ _ _ _ Hraise). reflexivity.
    + eexists. cbn [app]. rewrite <- !app_assoc. reflexivity.
  - destruct (crawl_next_total s Hne) as [(sch & _ & ->)|(c & sch & _ & -> & _)];
      eauto.
  - intros fuel o Hrun.
    pose proof (crawl_never_raises fuel s o Hne Hrun) as Hok.
    split; [exact Hok|].
    destruct (crawl_ends_once fuel s o Hrun Hok) as (cycles & _ & _ & _ & _ & -> & _).
    apply last_snoc.
Qed.

(** C5 on the site: the phone scan of [/broken] raises. *)
Lemma parse_failure_is_contained_witness :
  let s := Site.crawler [Site.broken] 1 in
  let r : Response := {| url := "http://x.test/broken"; status_code := 500;
              headers := {[ "content-type" := "text/html" ]};
              text := "<broken>" |} in
  res (crawl_next s) = Ok true
  /\ count is_page_or_document (emitted (crawl_next s)) = 0%nat
  /\ exists d,
       emitted (crawl_next s) =
       [EvPrint Site.broken;
        EvTimerWait 0;
        EvGet "http://x.test/broken" "Firefox" 30;
        EvStatusWarning 500 "http://x.test/broken"]
       ++ emitted (parse_response r Site.broken (Site.crawler [] 1))
       ++ [EvExceptionWarning Site.ExtractionError "http://x.test/broken";
           EvReportFoundUrls [];
           EvTimerStart d].
Proof.
  intros s r.
  apply (proj1 (parse_failure_is_contained s ltac:(discriminate))
           Site.broken {| Site.pending := []; Site.robots_delay := 1 |} r
           Site.ExtractionError).
  - reflexivity.
  - reflexivity.
  - reflexivity.
Defined.

(** C6, as it holds.  Whatever the status code of a fetched response, the
    crawler hands the code and the URL to the warning issuer, once, and
    then goes on to parse the response: the status warning stands right
    before the events of parsing.  The status code has no part in the
    choice of the parser, which is the same for any two responses with the
    same headers; when the response declares a content type, the first
    event after the warning is the construction of a parser, and when it
    declares none, nothing is parsed. *)
Theorem status_warning_precedes_extraction `{C : Collaborators} (s : Crawler)
    c_url r :
  requests_get (get_url c_url) (agent (config s)) 30 = Ok r ->
  let o := fetch_and_parse c_url s in
  let parsed := parse_response r c_url s in
  emitted o =
    EvGet (get_url c_url) (agent (config s)) 30
      :: EvStatusWarning (status_code r) (get_url c_url)
      :: emitted parsed
  /\ res o = res parsed
  /\ count is_status_warning (emitted o) = 1%nat
  /\ (forall r',
        headers r' = headers r ->
        count is_html_parser (emitted (parse_response r' c_url s))
        = count is_html_parser (emitted parsed)
        /\ count is_document_parser (emitted (parse_response r' c_url s))
           = count is_document_parser (emitted parsed))
  /\ (is_Some (headers r !! "content-type") ->
      exists ev evs,
        emitted parsed = ev :: evs
        /\ (is_html_parser ev || is_document_parser ev) = true)
  /\ (headers r !! "content-type" = None ->
      res parsed = Ok tt /\ emitted parsed = []).
Proof.
  intros Hget. cbv zeta.
  rewrite (fetch_returns c_url s r Hget). cbn [emitted res].
  split; [reflexivity|]. split; [reflexivity|]. split.
  - rewrite !count_cons. cbn [is_status_warning].
    rewrite count_none; [reflexivity|].
    destruct (parse_response_keeps r c_url s) as [_ Hev].
    eapply Forall_impl; [exact Hev|]. now intros [].
  - split.
    { intros r' Hheaders.
      destruct (parse_response_parsers r c_url s) as [-> ->].
      destruct (parse_response_parsers r' c_url s) as [-> ->].
      now rewrite Hheaders. }
    split.
    + intros [content_type Hct]. unfold parse_response. rewrite Hct.
      destruct (PyStr.contains "text/html" content_type).
      * destruct (_parse_page_events r c_url s) as (evs & -> & _).
        now eexists _, _.
      * rewrite _parse_document_run. now eexists _, _.
    + intros Hnone. unfold parse_response. now rewrite Hnone.
Qed.

(** C6 on the site: [/broken] answers 500 with an HTML body; the warning
    is issued and the scraper is built all the same. *)
Lemma status_warning_precedes_extraction_witness :
  let s := Site.crawler [] 1 in
  let r : Response := {| url := "http://x.test/broken"; status_code := 500;
              headers := {[ "content-type" := "text/html" ]};
              text := "<broken>" |} in
  let o := fetch_and_parse Site.broken s in
  let parsed := parse_response r Site.broken s in
  emitted o =
    EvGet "http://x.test/broken" "Firefox" 30
      :: EvStatusWarning 500 "http://x.test/broken"
      :: emitted parsed
  /\ res o = res parsed
  /\ count is_status_warning (emitted o) = 1%nat
  /\ (forall r',
        headers r' = headers r ->
        count is_html_parser (emitted (parse_response r' Site.broken s))
        = count is_html_parser (emitted parsed)
        /\ count is_document_parser (emitted (parse_response r' Site.broken s))
           = count is_document_parser (emitted parsed))
  /\ (is_Some (headers r !! "content-type") ->
      exists ev evs,
        emitted parsed = ev :: evs
        /\ (is_html_parser ev || is_document_parser ev) = true)
  /\ (headers r !! "content-type" = None ->
      res parsed = Ok tt /\ emitted parsed = []).
Proof.
  intros s r.
  apply (status_warning_precedes_extraction s Site.broken r).
  reflexivity.
Defined.

(** C6 as stated, with extraction attempted for every response of
    anomalous status, fails where the test on the [content-type] header
    fails: [/bare] answers 404 without headers; the warning is issued, and
    no parser is built. *)
Lemma anomalous_response_without_content_type :
  let s := Site.crawler [] 1 in
  let r : Response :=
    {| url := "http://x.test/bare"; status_code := 404; headers := ∅;
       text := "" |} in
  let evs := emitted (fetch_and_parse Site.bare s) in
  @requests_get Site.site (get_url Site.bare) (agent (config s)) 30 = Ok r
  /\ 400 <= status_code r
  /\ evs = [EvGet "http://x.test/bare" "Firefox" 30;
            EvStatusWarning 404 "http://x.test/bare"]
  /\ count is_html_parser evs = 0%nat
  /\ count is_document_parser evs = 0%nat
  /\ count is_record evs = 0%nat.
Proof.
  cbv zeta. split; [reflexivity|]. split; [discriminate|].
  split; [reflexivity|]. now repeat split.
Qed.



(** C8.  [_parse_document] always reports the empty list to the scheduler,
    once, and never raises.  It appends one document record, the parser's
    data with the path of the URL added, when the extension of the response
    is a recognised one, which is when the parser returns data; otherwise
    it appends nothing. *)
Theorem document_record_is_gated `{C : Collaborators} (s : Crawler) r c_url :
  let o := _parse_document r c_url s in
  let docs := documents (config s) in
  let path := get_url_parts_path c_url in
  res o = Ok tt
  /\ post o = reported [] s
  /\ count is_report (emitted o) = 1%nat
  /\ EvReportFoundUrls [] ∈ emitted o
  /\ count is_exception_warning (emitted o) = 0%nat
  /\ (response_extension r ∈ docs ->
      exists data,
        DocumentResponse_extract r docs = Some data
        /\ emitted o =
           [EvDocumentResponse r docs;
            EvReportFoundUrls [];
            EvAddDocument (get_netloc c_url) (<["path" := path]> data)]
        /\ <["path" := path]> data !! "path" = Some path
        /\ count is_record (emitted o) = 1%nat)
  /\ (response_extension r ∉ docs ->
      DocumentResponse_extract r docs = None
      /\ emitted o = [EvDocumentResponse r docs; EvReportFoundUrls []]
      /\ count is_record (emitted o) = 0%nat).
Proof.
  cbv zeta. rewrite _parse_document_run. cbn [res post emitted app].
  split; [reflexivity|]. split; [reflexivity|].
  rewrite !count_cons. cbn [is_report is_exception_warning].
  split; [|split; [|split; [|split]]].
  - destruct (DocumentResponse_extract r (documents (config s))) as [data|];
      [destruct (decide (data = ∅))|]; reflexivity.
  - apply list_elem_of_further, list_elem_of_here.
  - destruct (DocumentResponse_extract r (documents (config s))) as [data|];
      [destruct (decide (data = ∅))|]; reflexivity.
  - intros Hext.
    destruct (DocumentResponse_extract_recognised _ _ Hext)
      as (data & -> & Hne & _).
    exists data. destruct (decide (data = ∅)); [contradiction|].
    split; [reflexivity|]. split; [reflexivity|].
    split; [apply lookup_insert_eq | reflexivity].
  - intros Hext. rewrite (DocumentResponse_extract_other _ _ Hext).
    now repeat split.
Qed.

(** C8 on the site: [zip] is a document extension of the default
    configuration, so [/files/a.zip] leaves one record with its path. *)
Lemma document_record_is_gated_witness :
  let s := Site.crawler [] 1 in
  let r : Response := {| url := "http://x.test/files/a.zip"; status_code := 200;
              headers := {[ "content-type" := "application/zip" ]};
              text := "PK" |} in
  exists data : DocData,
    @DocumentResponse_extract Site.site r (documents (config s)) = Some data
    /\ emitted (_parse_document r Site.archive s) =
       [EvDocumentResponse r (documents (config s));
        EvReportFoundUrls [];
        EvAddDocument "x.test" (<["path" := "/files/a.zip"]> data)]
    /\ <["path" := "/files/a.zip"]> data !! "path" = Some "/files/a.zip"
    /\ count is_record (emitted (_parse_document r Site.archive s)) = 1%nat.
Proof.
  intros s r.
  apply (document_record_is_gated s r Site.archive).
  vm_compute. reflexivity.
Defined.

(** C9.  A response without a [content-type] header: the cycle consists of
    the wait, the request, the status warning and the restart of the timer.
    No parser is built, nothing is recorded, [report_found_urls] is not
    called (the schedule is the one [next_url] left); the delay is computed
    anew, from a delay list that has an element, and [crawl_next] answers
    [True]. *)
Theorem missing_content_type_skips_parsing `{C : Collaborators} (s : Crawler)
    c_url sch r :
  next_url (schedule s) = (Some c_url, sch) ->
  requests_get (get_url c_url) (agent (config s)) 30 = Ok r ->
  headers r !! "content-type" = None ->
  default_delay (config s) <> [] ->
  exists sample,
    let d := Z.max sample (get_crawl_delay sch) in
    sample ∈ default_delay (config s)
    /\ crawl_next s =
       Outcome (Ok true)
         (set_delay_sw {| duration := d |}
            (set_random_draws (S (random_draws s)) (set_schedule sch s)))
         [EvPrint c_url;
          EvTimerWait (duration (delay_sw s));
          EvGet (get_url c_url) (agent (config s)) 30;
          EvStatusWarning (status_code r) (get_url c_url);
          EvTimerStart d].
Proof.
  intros Hnext Hget Hnone Hne.
  destruct (crawl_next_cycle s c_url sch Hnext Hne) as (sample & Hsample & ->).
  exists sample. split; [eapply list_elem_of_lookup_2, Hsample|].
  rewrite try_run, (fetch_returns c_url (set_schedule sch s) r Hget).
  unfold parse_response. rewrite Hnone. reflexivity.
Qed.

(** C9 on the site: [/bare] answers 404 without any header. *)
Lemma missing_content_type_skips_parsing_witness :
  exists sample,
    let d := Z.max sample 1 in
    sample ∈ [0; 2; 5]
    /\ crawl_next (Site.crawler [Site.bare] 1) =
       Outcome (Ok true)
         (set_delay_sw {| duration := d |}
            (set_random_draws 1 (Site.crawler [] 1)))
         [EvPrint Site.bare;
          EvTimerWait 0;
          EvGet "http://x.test/bare" "Firefox" 30;
          EvStatusWarning 404 "http://x.test/bare";
          EvTimerStart d].
Proof.
  apply (missing_content_type_skips_parsing (Site.crawler [Site.bare] 1) Site.bare
           {| Site.pending := []; Site.robots_delay := 1 |}
           {| url := "http://x.test/bare"; status_code := 404; headers := ∅;
              text := "" |}).
  - reflexivity.
  - reflexivity.
  - reflexivity.
  - discriminate.
Defined.

(** C10.  [crawl_next] lets no exception of the [try] block out: whatever
    is raised while fetching or parsing becomes one warning with that
    exception and the URL, followed by [report_found_urls([])], and the
    cycle goes on to the delay.  The only exception a call can end in is
    the [IndexError] of sampling an empty delay list, after the [try]
    statement.  The answer of [crawl_next] is [False] exactly when
    [next_url()] answered [None]. *)
Theorem crawl_next_contains_exceptions `{C : Collaborators} (s : Crawler) :
  (forall e',
      res (crawl_next s) = Raise e' ->
      e' = IndexError /\ default_delay (config s) = [])
  /\ (forall b,
         res (crawl_next s) = Ok b ->
         (b = false <-> fst (next_url (schedule s)) = None))
  /\ (default_delay (config s) <> [] -> exists b, res (crawl_next s) = Ok b)
  /\ (forall c_url sch e,
         next_url (schedule s) = (Some c_url, sch) ->
         res (fetch_and_parse c_url (set_schedule sch s)) = Raise e ->
         exists rest,
           emitted (crawl_next s) =
           [EvPrint c_url; EvTimerWait (duration (delay_sw s))]
           ++ emitted (fetch_and_parse c_url (set_schedule sch s))
           ++ [EvExceptionWarning e (get_url c_url); EvReportFoundUrls []]
           ++ rest
           /\ (rest = [] \/ exists d, rest = [EvTimerStart d])).
Proof.
  destruct (next_url (schedule s)) as [[c_url|] sch] eqn:Hnext.
  - destruct (default_delay (config s)) as [|d0 ds] eqn:Hd.
    + rewrite (crawl_next_cycle_empty s c_url sch Hnext Hd).
      cbv zeta. cbn [res emitted fst].
      split; [now intros e' [= <-]|]. split; [discriminate|].
      split; [now intros []|].
      intros c_url' sch' e [= <- <-] Hraise. exists [].
      rewrite try_run, Hraise. cbn [emitted app].
      split; [reflexivity | now left].
    + destruct (crawl_next_cycle s c_url sch Hnext) as (sample & _ & ->);
        [rewrite Hd; discriminate|].
      cbv zeta. cbn [res emitted fst].
      split; [discriminate|]. split; [intros b [= <-]; now split|].
      split; [eauto|].
      intros c_url' sch' e [= <- <-] Hraise. eexists [_].
      rewrite try_run, Hraise. cbn [emitted app].
      rewrite <- !app_assoc. cbn [app]. split; [reflexivity | eauto].
  - rewrite (crawl_next_finished s sch Hnext). cbn [res fst].
    split; [discriminate|]. split; [intros b [= <-]; now split|].
    split; [eauto | discriminate].
Qed.

(** C10 on the site: the refused connection of [/down] ends as a warning
    and an empty report, and the answer is [True] as the queue was not
    empty. *)
Lemma crawl_next_contains_exceptions_witness :
  let s := Site.crawler [Site.down] 0 in
  exists rest,
    emitted (crawl_next s) =
    [EvPrint Site.down; EvTimerWait 0]
    ++ emitted (fetch_and_parse Site.down (Site.crawler [] 0))
    ++ [EvExceptionWarning Site.ConnectionError "http://x.test/down";
        EvReportFoundUrls []]
    ++ rest
    /\ (rest = [] \/ exists d, rest = [EvTimerStart d]).
Proof.
  intros s.
  apply (proj2 (proj2 (proj2 (crawl_next_contains_exceptions s))) Site.down
           {| Site.pending := []; Site.robots_delay := 0 |}
           Site.ConnectionError).
  - reflexivity.
  - reflexivity.
Defined.

(** ** Two more properties of the cycle *)

(** An empty delay list.  [random.choice] raises [IndexError] on an empty
    sequence, outside the [try] block: a cycle that fetched a URL then ends
    in that exception, after the [try] statement has run and before the
    timer is restarted, and [crawl_next] gives no answer. *)
Theorem empty_delay_list_raises `{C : Collaborators} (s : Crawler) c_url sch :
  next_url (schedule s) = (Some c_url, sch) ->
  default_delay (config s) = [] ->
  let handled :=
    try_except (fetch_and_parse c_url) (on_exception c_url)
      (set_schedule sch s) in
  res (crawl_next s) = Raise IndexError
  /\ post (crawl_next s) = post handled
  /\ emitted (crawl_next s) =
     EvPrint c_url :: EvTimerWait (duration (delay_sw s)) :: emitted handled.
Proof.
  intros Hnext Hnil. rewrite (crawl_next_cycle_empty s c_url sch Hnext Hnil).
  now repeat split.
Qed.

(** On the site, with the empty list as the delay profile. *)
Lemma empty_delay_list_raises_witness :
  let s := Site.crawler_with (set_default "Firefox" [] "/opt/arachnid")
             [Site.bare] 0 in
  let handled :=
    try_except (fetch_and_parse Site.bare) (on_exception Site.bare)
      (@set_schedule Site.site
         {| Site.pending := []; Site.robots_delay := 0 |} s) in
  res (crawl_next s) = Raise IndexError
  /\ post (crawl_next s) = post handled
  /\ emitted (crawl_next s) =
     EvPrint Site.bare :: EvTimerWait 0 :: emitted handled.
Proof.
  intros s.
  apply (empty_delay_list_raises s Site.bare
           {| Site.pending := []; Site.robots_delay := 0 |}).
  - reflexivity.
  - reflexivity.
Defined.

(** A failure after the report.  [_parse_page] reports the links before it
    counts the occurrences of the custom string.  When that count raises,
    the links are already with the scheduler; the handler then reports the
    empty list as well, so the scheduler hears twice in one cycle, and the
    page itself gets no record. *)
Theorem late_failure_reports_twice `{C : Collaborators} (s : Crawler)
    c_url sch r content_type found e :
  next_url (schedule s) = (Some c_url, sch) ->
  default_delay (config s) <> [] ->
  requests_get (get_url c_url) (agent (config s)) 30 = Ok r ->
  headers r !! "content-type" = Some content_type ->
  PyStr.contains "text/html" content_type = true ->
  res (_parse_page r c_url (set_schedule sch s)) = Raise e ->
  EvReportFoundUrls found ∈ emitted (_parse_page r c_url (set_schedule sch s)) ->
  res (crawl_next s) = Ok true
  /\ count is_report (emitted (crawl_next s)) = 2%nat
  /\ count is_page_or_document (emitted (crawl_next s)) = 0%nat
  /\ schedule (post (crawl_next s))
     = report_found_urls [] (report_found_urls found sch).
Proof.
  intros Hnext Hne Hget Hct Hhtml Hraise Hin.
  destruct (crawl_next_cycle s c_url sch Hnext Hne) as (sample & _ & ->).
  rewrite try_run, (fetch_returns c_url (set_schedule sch s) r Hget).
  unfold parse_response. rewrite Hct, Hhtml.
  cbv zeta. cbn [res post emitted]. rewrite Hraise. cbn [res post emitted].
  split; [reflexivity|].
  assert (Hsig : forall scraper res_ signals,
             gather_signals (config (set_schedule sch s)) scraper
               (set_schedule sch s)
             = Outcome res_ (set_schedule sch s) signals ->
             Forall (fun ev => is_signal ev = true) signals).
  { intros scraper res_ signals Heq.
    destruct (gather_signals_keeps (config (set_schedule sch s)) scraper
                (set_schedule sch s)) as [_ Hev].
    now rewrite Heq in Hev. }
  assert (Hnot : forall signals,
             Forall (fun ev => is_signal ev = true) signals ->
             EvReportFoundUrls found ∉ signals).
  { intros signals Hall Hin'. rewrite Forall_forall in Hall.
    now apply Hall in Hin'. }
  destruct (_parse_page_run r c_url (set_schedule sch s))
    as [e' Hnew|scraper signals e' Hnew Hs|scraper signals e' Hnew Hs Hf
        |scraper signals found' e' Hnew Hs Hf Hi
        |scraper signals found' page_info Hnew Hs Hf Hi];
    cbn [emitted post res] in *; try discriminate;
    apply elem_of_cons in Hin as [Hin|Hin]; try discriminate.
  - now apply elem_of_nil in Hin.
  - now apply (Hnot _ (Hsig _ _ _ Hs)) in Hin.
  - now apply (Hnot _ (Hsig _ _ _ Hs)) in Hin.
  - apply elem_of_app in Hin as [Hin|Hin];
      [now apply (Hnot _ (Hsig _ _ _ Hs)) in Hin|].
    apply elem_of_cons in Hin as [[= ->]|Hin]; [|now apply elem_of_nil in Hin].
    assert (Hrep : count is_report signals = 0%nat).
    { apply count_none. eapply Forall_impl; [exact (Hsig _ _ _ Hs)|]. now intros []. }
    assert (Hrec : count is_page_or_document signals = 0%nat).
    { apply count_none. eapply Forall_impl; [exact (Hsig _ _ _ Hs)|]. now intros []. }
    repeat split.
    + rewrite !count_cons, !count_app, !count_cons, !count_app, !count_cons,
        !count_nil, Hrep. reflexivity.
    + rewrite !count_cons, !count_app, !count_cons, !count_app, !count_cons,
        !count_nil, Hrec. reflexivity.
Qed.

(** On the site, with the needle that cannot be counted: the two links of
    the index page are reported, then the empty list. *)
Lemma late_failure_reports_twice_witness :
  let s := Site.crawler_with (set_custom_str (Some "boom") Site.cfg)
             [Site.index] 1 in
  res (crawl_next s) = Ok true
  /\ count is_report (emitted (crawl_next s)) = 2%nat
  /\ count is_page_or_document (emitted (crawl_next s)) = 0%nat
  /\ schedule (post (crawl_next s))
     = Site.push []
         (Site.push
            [Site.c_url_of "http://x.test/files/a.zip"
               "http://x.test/files/a.zip" "";
             Site.c_url_of "http://x.test/my%20page.html"
               "http://x.test/my%20page.html" ""]
            {| Site.pending := []; Site.robots_delay := 1 |}).
Proof.
  intros s.
  apply (late_failure_reports_twice s Site.index
           {| Site.pending := []; Site.robots_delay := 1 |}
           {| url := "http://x.test/"; status_code := 200;
              headers := {[ "content-type" := "text/html; charset=utf-8" ]};
              text := "<index>" |}
           "text/html; charset=utf-8" _ Site.ExtractionError).
  - reflexivity.
  - discriminate.
  - reflexivity.
  - reflexivity.
  - reflexivity.
  - reflexivity.
  - vm_compute. do 2 apply list_elem_of_further. apply list_elem_of_here.
Defined.

(** The configuration is read and never written: whatever a call of
    [crawl_next] does and however it ends, the crawler keeps its
    configuration. *)
Theorem crawl_next_keeps_config `{C : Collaborators} (s : Crawler) :
  config (post (crawl_next s)) = config s.
Proof.
  destruct (next_url (schedule s)) as [[c_url|] sch] eqn:Hnext.
  - assert (Hcfg : config (post (try_except (fetch_and_parse c_url)
                                   (on_exception c_url) (set_schedule sch s)))
                   = config s)
      by now rewrite (only_schedule_config _ _ (try_only_schedule c_url _)).
    destruct (default_delay (config s)) as [|d0 ds] eqn:Hd.
    + now rewrite (crawl_next_cycle_empty s c_url sch Hnext Hd).
    + destruct (crawl_next_cycle s c_url sch Hnext) as (sample & _ & ->);
        [rewrite Hd; discriminate | exact Hcfg].
  - now rewrite (crawl_next_finished s sch Hnext).
Qed.

(** * The PHP finder and the construction of a crawler *)

(** ** Splitting and decoding *)

Module PyTextFacts.
Import PyStr PyText.

Lemma split_nonempty s : at_word_end s = false -> split s <> [].
Proof.
  destruct s as [|c s]; simpl; [discriminate|].
  intros ->. destruct (at_word_end s); [discriminate|].
  destruct (split s); discriminate.
Qed.


Lemma split_app s t :
  at_word_end t = true -> split (s +:+ t) = split s ++ split t.
Proof.
  intros Ht. induction s as [|c s IH]; [reflexivity|].
  change (String c s +:+ t) with (String c (s +:+ t)). simpl.
  destruct (isspace c); [exact IH|].
  destruct s as [|c' s].
  - change ("" +:+ t) with t. now rewrite Ht.
  - change (at_word_end (String c' s +:+ t)) with (isspace c').
    simpl (at_word_end (String c' s)).
    destruct (isspace c') eqn:Hc'.
    + now rewrite IH.
    + rewrite IH.
      assert (Hne : split (String c' s) <> []) by now apply split_nonempty.
      destruct (split (String c' s)) as [|w ws]; [congruence|reflexivity].
Qed.

Lemma split_flag s : split (s +:+ " -v") = split s ++ ["-v"].
Proof. now rewrite split_app. Qed.

Lemma split_on_cons sep s : exists p ps, split_on sep s = p :: ps.
Proof.
  destruct s as [|c s]; simpl; eauto.
  destruct (Ascii.eqb c sep); eauto.
  destruct (split_on sep s); eauto.
Qed.

Lemma prefix_one sep c s :
  String.prefix (String sep "") (String c s) = Ascii.eqb c sep.
Proof.
  simpl. destruct (ascii_dec sep c) as [->|Hne].
  - rewrite Ascii.eqb_refl. now destruct s.
  - symmetry. apply Ascii.eqb_neq. congruence.
Qed.

Lemma split_on_whole sep s :
  contains (String sep "") s = false -> split_on sep s = [s].
Proof.
  induction s as [|c s IH]; [reflexivity|].
  intros H. change (contains (String sep "") (String c s))
    with (String.prefix (String sep "") (String c s) || contains (String sep "") s) in H.
  rewrite prefix_one in H. apply orb_false_elim in H as [Hc Hs].
  simpl. rewrite Hc, (IH Hs). reflexivity.
Qed.

Lemma concat_cons sep x p ps :
  String.concat sep (x :: p :: ps) = x +:+ sep +:+ String.concat sep (p :: ps).
Proof. reflexivity. Qed.

(** Joining the pieces with the separator gives the string back. *)
Lemma split_on_join sep s :
  String.concat (String sep "") (split_on sep s) = s.
Proof.
  induction s as [|c s IH]; [reflexivity|]. simpl.
  destruct (split_on_cons sep s) as (p & ps & Hs). rewrite Hs in *.
  destruct (Ascii.eqb_spec c sep) as [->|Hne].
  - rewrite concat_cons, IH. reflexivity.
  - destruct ps as [|q ps].
    + simpl in *. now rewrite IH.
    + rewrite concat_cons in *. rewrite <- IH. reflexivity.
Qed.

(** Bytes below 128 always decode. *)
Lemma ascii_decodes bs :
  Forall (fun b => (b <= 127)%N) bs -> utf8_valid bs = true.
Proof.
  induction 1 as [|b bs Hb _ IH]; [reflexivity|]. simpl.
  apply N.leb_le in Hb. now rewrite Hb.
Qed.

End PyTextFacts.

(** ** The PHP finder *)

Module PhpFinderFacts.
Import PhpFinder.

Section FinderRuns.
Context `{Sys : System}.

Lemma P_bind_run {A B} (m : P A) (k : A -> P B) (w : world) :
  (m ≫= k) w =
  match answer (m w) with
  | Ok a =>
      Ran (answer (k a (after (m w)))) (after (k a (after (m w))))
          (trace (m w) ++ trace (k a (after (m w))))
  | Raise e => Ran (Raise e) (after (m w)) (trace (m w))
  end.
Proof. reflexivity. Qed.

Lemma P_ret_bind {A B} (a : A) (k : A -> P B) (w : world) :
  (mret a ≫= k) w = k a w.
Proof. rewrite P_bind_run. cbn. now destruct (k a w). Qed.

(** A probe leaves the world as it is, runs one command line, and answers
    the same in every world. *)
Lemma is_php_launcher_run file_loc w :
  is_php_launcher file_loc w =
  Ran (answer (is_php_launcher file_loc w)) w
      [IoPopen (PyText.split file_loc ++ ["-v"])].
Proof.
  rewrite <- PyTextFacts.split_flag.
  unfold is_php_launcher, item, lift, log, throw, mbind, mret, P_mbind, P_ret,
    P_bind.
  cbn.
  destruct (popen _) as [out err| | |e]; try reflexivity.
  destruct (PyStr.truthy err); [reflexivity|]. cbn.
  destruct (PyText.decode_utf8 out) as [text|e]; [|reflexivity]. cbn.
  destruct (PyTextFacts.split_on_cons "010" text) as (p & ps & ->). cbn.
  destruct (PyStr.contains "PHP" p); [|reflexivity].
  destruct ps; reflexivity.
Qed.

Lemma is_php_launcher_answer file_loc w w' :
  answer (is_php_launcher file_loc w) = answer (is_php_launcher file_loc w').
Proof.
  unfold is_php_launcher, item, lift, log, throw, mbind, mret, P_mbind, P_ret,
    P_bind.
  cbn.
  destruct (popen _) as [out err| | |e]; try reflexivity.
  destruct (PyStr.truthy err); [reflexivity|]. cbn.
  destruct (PyText.decode_utf8 out) as [text|e]; [|reflexivity]. cbn.
  destruct (PyTextFacts.split_on_cons "010" text) as (p & ps & ->). cbn.
  destruct (PyStr.contains "PHP" p); [|reflexivity].
  destruct ps; reflexivity.
Qed.

Lemma is_php_launcher_answer_eq file_loc w :
  answer (is_php_launcher file_loc w) =
  match popen (PyText.split file_loc ++ ["-v"]) with
  | TimeoutExpired | FileNotFound => Ok false
  | Failed e => Raise e
  | Communicated out err =>
      if PyStr.truthy err then Ok false
      else
        match PyText.decode_utf8 out with
        | Raise e => Raise e
        | Ok text =>
            match PyText.split_on "010" text with
            | first :: rest =>
                if PyStr.contains "PHP" first then
                  match rest with
                  | second :: _ => Ok (PyStr.contains "The PHP Group" second)
                  | [] => Raise IndexError
                  end
                else Ok false
            | [] => Raise IndexError
            end
        end
  end.
Proof.
  rewrite <- PyTextFacts.split_flag.
  unfold is_php_launcher, item, lift, log, throw, mbind, mret, P_mbind, P_ret,
    P_bind.
  cbn.
  destruct (popen _) as [out err| | |e]; try reflexivity.
  destruct (PyStr.truthy err); [reflexivity|]. cbn.
  destruct (PyText.decode_utf8 out) as [text|e]; [|reflexivity]. cbn.
  destruct (PyTextFacts.split_on_cons "010" text) as (p & ps & ->). cbn.
  destruct (PyStr.contains "PHP" p); [|reflexivity].
  destruct ps; reflexivity.
Qed.

Lemma probe_run (path : string) w :
  (launcher ← is_php_launcher path;
   mret (if (launcher : bool) then Some path else None)) w =
  Ran (probed path w) w [IoPopen (PyText.split path ++ ["-v"])].
Proof.
  unfold probed. rewrite P_bind_run, (is_php_launcher_run path w).
  cbn [answer after trace].
  destruct (answer (is_php_launcher path w)); reflexivity.
Qed.

Lemma check_path_environment_variable_run w :
  check_path_environment_variable w =
  Ran (probed "php" w) w [IoPopen ["php"; "-v"]].
Proof. exact (probe_run "php" w). Qed.

Lemma check_default_path_run w :
  check_default_path w =
  Ran (probed linux_default w) w [IoPopen [linux_default; "-v"]].
Proof. exact (probe_run linux_default w). Qed.

Lemma check_saved_path_run w :
  check_saved_path w =
  match saved_php_path_file w with
  | Some content =>
      Ran (probed content w) w
          [IoOpenRead; IoPopen (PyText.split content ++ ["-v"])]
  | None => Ran (Raise FileNotFoundError) w [IoOpenRead]
  end.
Proof.
  unfold check_saved_path. rewrite P_bind_run. unfold read_saved_php_path_file.
  destruct (saved_php_path_file w) as [content|]; [|reflexivity].
  cbn [answer after trace]. rewrite probe_run. reflexivity.
Qed.

Lemma probed_truthy path w o :
  probed path w = Ok o -> PyStr.truthy_opt o = true ->
  o = Some path /\ path <> "" /\ answer (is_php_launcher path w) = Ok true.
Proof.
  unfold probed. destruct (answer (is_php_launcher path w)) as [[]|]; intros H Ht;
    inversion H; subst; simpl in Ht; try discriminate.
  repeat split. intros ->. discriminate.
Qed.

Lemma prompt_loop_cons line rest w :
  prompt_loop (line :: rest) w =
  let w1 := {| saved_php_path_file := saved_php_path_file w; stdin := rest |} in
  let probe := IoPopen (PyText.split (PyStr.strip line) ++ ["-v"]) in
  match answer (is_php_launcher (PyStr.strip line) w) with
  | Raise e => Ran (Raise e) w1 [IoInput launcher_prompt; probe]
  | Ok launcher =>
      if launcher && PyStr.truthy (PyStr.strip line) then
        Ran (Ok (PyStr.strip line)) w1 [IoInput launcher_prompt; probe]
      else
        let r := prompt_loop rest w1 in
        Ran (answer r) (after r) (rejection line ++ trace r)
  end.
Proof.
  cbn [prompt_loop]. unfold input_leaves, print, log.
  rewrite P_bind_run. cbn [answer after trace]. cbv zeta.
  rewrite P_bind_run. rewrite (is_php_launcher_run (PyStr.strip line)).
  cbn [answer after trace].
  rewrite (is_php_launcher_answer _ _ w).
  destruct (answer (is_php_launcher (PyStr.strip line) w)) as [[]|e];
    [|reflexivity|reflexivity].
  destruct (PyStr.truthy (PyStr.strip line)); reflexivity.
Qed.

Lemma turned_down_anywhere w w' line :
  turned_down w line -> turned_down w' line.
Proof.
  intros (b & Hb & Hs). exists b. split; [|exact Hs].
  now rewrite (is_php_launcher_answer _ w' w).
Qed.

Lemma prompt_loop_accepts lines w p :
  answer (prompt_loop lines w) = Ok p ->
  exists rejected line rest,
    lines = rejected ++ line :: rest
    /\ p = PyStr.strip line /\ p <> ""
    /\ answer (is_php_launcher p w) = Ok true
    /\ Forall (turned_down w) rejected
    /\ prompt_loop lines w =
       Ran (Ok p)
           {| saved_php_path_file := saved_php_path_file w; stdin := rest |}
           (flat_map rejection rejected
              ++ [IoInput launcher_prompt;
                  IoPopen (PyText.split p ++ ["-v"])]).
Proof.
  revert w. induction lines as [|line lines IH]; intros w; [discriminate|].
  rewrite prompt_loop_cons. cbv zeta.
  destruct (answer (is_php_launcher (PyStr.strip line) w)) as [b|e] eqn:Hb;
    [|discriminate].
  destruct (b && PyStr.truthy (PyStr.strip line)) eqn:Hacc.
  - cbn [answer]. intros [= <-]. apply andb_prop in Hacc as [-> Ht].
    exists [], line, lines. repeat split; try reflexivity; [|assumption|constructor].
    intros Hs. rewrite Hs in Ht. discriminate.
  - cbn [answer]. intros Hp.
    destruct (IH _ Hp) as (rej & l & rest & -> & -> & Hne & Hl & Hrej & Hrun).
    exists (line :: rej), l, rest. repeat split; try assumption.
    + rewrite <- Hl. apply is_php_launcher_answer.
    + constructor.
      * exists b. split; [exact Hb|]. intros ->. simpl in Hacc.
        destruct (PyStr.strip line); [reflexivity|discriminate].
      * eapply Forall_impl; [exact Hrej|]. intros ?. apply turned_down_anywhere.
    + rewrite Hrun. cbn [answer after trace saved_php_path_file flat_map].
      now rewrite <- app_assoc.
Qed.

Lemma prompt_loop_eof lines w :
  Forall (turned_down w) lines ->
  stdin w = lines ->
  prompt_loop lines w =
  Ran (Raise EOFError)
      {| saved_php_path_file := saved_php_path_file w; stdin := [] |}
      (flat_map rejection lines ++ [IoInput launcher_prompt]).
Proof.
  revert w. induction lines as [|line lines IH]; intros w Hall Hw.
  - destruct w as [saved input]. simpl in Hw. subst. reflexivity.
  - inversion Hall as [|? ? (b & Hb & Hs) Hrest]; subst.
    rewrite prompt_loop_cons. cbv zeta. rewrite Hb.
    assert (b && PyStr.truthy (PyStr.strip line) = false) as ->.
    { destruct b; [|reflexivity]. now rewrite Hs. }
    rewrite IH; [|eapply Forall_impl; [exact Hrest|];
                   intros ?; apply turned_down_anywhere|reflexivity].
    cbn [answer after trace saved_php_path_file flat_map].
    now rewrite <- app_assoc.
Qed.


Lemma prompt_for_php_path_run w :
  prompt_for_php_path w =
  let r := prompt_loop (stdin w) w in
  match answer r with
  | Ok p =>
      Ran (Ok p)
          {| saved_php_path_file := Some p; stdin := stdin (after r) |}
          (IoPrint unable_message :: trace r ++ [IoOpenWrite p])
  | Raise e => Ran (Raise e) (after r) (IoPrint unable_message :: trace r)
  end.
Proof.
  unfold prompt_for_php_path, print, log, waiting_lines, save_path.
  rewrite !P_bind_run. cbn [answer after trace]. cbv zeta.
  rewrite !P_bind_run. cbn [answer after trace].
  destruct (answer (prompt_loop (stdin w) w)); [|reflexivity].
  rewrite !P_bind_run. cbn [answer after trace]. now rewrite app_nil_r.
Qed.

Lemma get_php_path_run w :
  get_php_path w =
  match saved_php_path_file w with
  | None => Ran (Raise FileNotFoundError) w [IoOpenRead]
  | Some content =>
      let t1 := [IoOpenRead; IoPopen (PyText.split content ++ ["-v"])] in
      match probed content w with
      | Raise e => Ran (Raise e) w t1
      | Ok path =>
          if PyStr.truthy_opt path then Ran (Ok path) w t1
          else
            let t2 := t1 ++ [IoPopen ["php"; "-v"]] in
            match probed "php" w with
            | Raise e => Ran (Raise e) w t2
            | Ok path =>
                if PyStr.truthy_opt path then Ran (Ok path) w t2
                else
                  let t3 := t2 ++ [IoPopen [linux_default; "-v"]] in
                  match probed linux_default w with
                  | Raise e => Ran (Raise e) w t3
                  | Ok path =>
                      if PyStr.truthy_opt path then Ran (Ok path) w t3
                      else
                        let r := prompt_for_php_path w in
                        Ran (match answer r with
                             | Ok p => Ok (Some p)
                             | Raise e => Raise e
                             end)
                            (after r) (t3 ++ trace r)
                  end
            end
      end
  end.
Proof.
  unfold get_php_path. rewrite P_bind_run, check_saved_path_run.
  destruct (saved_php_path_file w) as [content|]; [|reflexivity].
  cbn [answer after trace]. cbv zeta.
  destruct (probed content w) as [o1|e]; [|reflexivity].
  destruct (PyStr.truthy_opt o1) eqn:H1.
  { repeat (rewrite P_ret_bind; cbn beta; rewrite ?H1, ?H2, ?H3). reflexivity. }
  rewrite P_bind_run, check_path_environment_variable_run.
  cbn [answer after trace].
  destruct (probed "php" w) as [o2|e]; [|reflexivity].
  destruct (PyStr.truthy_opt o2) eqn:H2.
  { repeat (rewrite P_ret_bind; cbn beta; rewrite ?H1, ?H2, ?H3). reflexivity. }
  rewrite P_bind_run, check_default_path_run.
  cbn [answer after trace].
  destruct (probed linux_default w) as [o3|e]; [|reflexivity].
  destruct (PyStr.truthy_opt o3) eqn:H3.
  { repeat (rewrite P_ret_bind; cbn beta; rewrite ?H1, ?H2, ?H3). reflexivity. }
  rewrite !P_bind_run. cbn [answer after trace].
  destruct (answer (prompt_for_php_path w)); cbn; rewrite ?app_nil_r; reflexivity.
Qed.

End FinderRuns.

(** *** The functions of the module *)


(** A program that answers [-v] with one line that mentions PHP, and with
    nothing on the error stream: [out_lines[1]] does not exist, and
    [is_php_launcher] raises [IndexError] where one expects [False]. *)
Theorem one_line_banner_raises `{Sys : System} (file_loc out : string)
    (w : world) :
  popen (PyText.split file_loc ++ ["-v"]) = Communicated out "" ->
  PyText.utf8_valid (PyText.bytes_of out) = true ->
  PyStr.contains (String "010" "") out = false ->
  PyStr.contains "PHP" out = true ->
  is_php_launcher file_loc w =
  Ran (Raise IndexError) w [IoPopen (PyText.split file_loc ++ ["-v"])].
Proof.
  intros Hrun Hvalid Hline Hphp.
  rewrite is_php_launcher_run, is_php_launcher_answer_eq, Hrun.
  unfold PyText.decode_utf8. rewrite Hvalid. cbn [PyStr.truthy].
  rewrite (PyTextFacts.split_on_whole _ _ Hline), Hphp. reflexivity.
Qed.

Lemma one_line_banner_raises_witness :
  @is_php_launcher Box.box "hhvm" (Box.fresh []) =
  Ran (Raise IndexError) (Box.fresh []) [IoPopen ["hhvm"; "-v"]].
Proof.
  apply (@one_line_banner_raises Box.box "hhvm" "HipHop VM 4.0 (PHP compatible)");
    reflexivity.
Defined.

(** When [is_php_launcher] accepts: exactly when the process ran to its
    end within the time limit, wrote nothing to the error stream, and its
    output is well-formed UTF-8 with at least two lines, the first
    mentioning ["PHP"] and the second ["The PHP Group"]. *)
Theorem launcher_accepts_iff `{Sys : System} (file_loc : string) (w : world) :
  answer (is_php_launcher file_loc w) = Ok true
  <-> exists out first second rest,
        popen (PyText.split file_loc ++ ["-v"]) = Communicated out ""
        /\ PyText.utf8_valid (PyText.bytes_of out) = true
        /\ PyText.split_on "010" out = first :: second :: rest
        /\ PyStr.contains "PHP" first = true
        /\ PyStr.contains "The PHP Group" second = true.
Proof.
  rewrite is_php_launcher_answer_eq. split.
  - destruct (popen _) as [out err| | |e]; try discriminate.
    destruct err; [|discriminate]. cbn [PyStr.truthy].
    unfold PyText.decode_utf8.
    destruct (PyText.utf8_valid (PyText.bytes_of out)) eqn:Hvalid; [|discriminate].
    destruct (PyText.split_on "010" out) as [|first [|second rest]] eqn:Hs;
      try discriminate.
    + destruct (PyStr.contains "PHP" first); discriminate.
    + destruct (PyStr.contains "PHP" first) eqn:Hf; [|discriminate].
      intros [= Hg]. exists out, first, second, rest. auto.
  - intros (out & first & second & rest & -> & Hvalid & Hs & Hf & Hg).
    unfold PyText.decode_utf8. cbn [PyStr.truthy].
    now rewrite Hvalid, Hs, Hf, Hg.
Qed.

(** The first run.  While [saved_php_path.txt] does not exist,
    [check_saved_path] fails to open it, and [get_php_path] ends in
    [FileNotFoundError] at once: no program is probed and the user is not
    asked. *)
Theorem missing_saved_file_escapes `{Sys : System} (w : world) :
  saved_php_path_file w = None ->
  get_php_path w = Ran (Raise FileNotFoundError) w [IoOpenRead].
Proof. intros H. now rewrite get_php_path_run, H. Qed.

Lemma missing_saved_file_escapes_witness :
  @get_php_path Box.box (Box.fresh ["/opt/php/bin/php"])
  = Ran (Raise FileNotFoundError) (Box.fresh ["/opt/php/bin/php"]) [IoOpenRead].
Proof. apply (@missing_saved_file_escapes Box.box). reflexivity. Defined.

(** What [get_php_path] returns is never [None]: it is a location that is
    not empty, that [is_php_launcher] accepts, and that was probed during
    the call. *)
Theorem get_php_path_answers_a_launcher `{Sys : System} (w : world)
    (path : option string) :
  answer (get_php_path w) = Ok path ->
  exists p,
    path = Some p /\ p <> ""
    /\ (forall w', answer (is_php_launcher p w') = Ok true)
    /\ IoPopen (PyText.split p ++ ["-v"]) ∈ trace (get_php_path w).
Proof.
  rewrite get_php_path_run.
  destruct (saved_php_path_file w) as [content|]; [|discriminate]. cbv zeta.
  assert (Hprobe : forall q o t t',
    probed q w = Ok o -> PyStr.truthy_opt o = true -> Ok o = Ok path ->
    exists p, path = Some p /\ p <> ""
      /\ (forall w', answer (is_php_launcher p w') = Ok true)
      /\ IoPopen (PyText.split p ++ ["-v"])
           ∈ t ++ IoPopen (PyText.split q ++ ["-v"]) :: t').
  { intros q o t t' Hq Ho [= <-].
    destruct (probed_truthy _ _ _ Hq Ho) as (-> & Hne & Hl).
    exists q. repeat split; try assumption.
    - intros w'. rewrite <- Hl. apply is_php_launcher_answer.
    - apply elem_of_app. right. apply elem_of_cons. now left. }
  destruct (probed content w) as [o1|e] eqn:H1; [|discriminate].
  destruct (PyStr.truthy_opt o1) eqn:T1.
  { cbn [answer trace]. apply (Hprobe content o1 [IoOpenRead] []); assumption. }
  destruct (probed "php" w) as [o2|e] eqn:H2; [|discriminate].
  destruct (PyStr.truthy_opt o2) eqn:T2.
  { cbn [answer trace].
    apply (Hprobe "php" o2 [IoOpenRead; IoPopen (PyText.split content ++ ["-v"])] []);
      assumption. }
  destruct (probed linux_default w) as [o3|e] eqn:H3; [|discriminate].
  destruct (PyStr.truthy_opt o3) eqn:T3.
  { cbn [answer trace].
    apply (Hprobe linux_default o3
             [IoOpenRead; IoPopen (PyText.split content ++ ["-v"]);
              IoPopen ["php"; "-v"]] []); assumption. }
  cbn [answer trace]. rewrite prompt_for_php_path_run. cbv zeta.
  destruct (answer (prompt_loop (stdin w) w)) as [p|e] eqn:Hloop; [|discriminate].
  cbn [answer trace]. intros [= <-].
  destruct (prompt_loop_accepts _ _ _ Hloop)
    as (rej & line & rest & _ & _ & Hne & Hl & _ & Hrun).
  exists p. repeat split; try assumption.
  - intros w'. rewrite <- Hl. apply is_php_launcher_answer.
  - rewrite Hrun. cbn [trace].
    apply elem_of_app. right. apply elem_of_cons. right.
    apply elem_of_app. left. apply elem_of_app. right.
    apply elem_of_cons. right. apply elem_of_cons. now left.
Qed.

Lemma get_php_path_answers_a_launcher_witness :
  exists p,
    Some "/opt/php/bin/php" = Some p /\ p <> ""
    /\ (forall w', answer (@is_php_launcher Box.box p w') = Ok true)
    /\ IoPopen (PyText.split p ++ ["-v"])
         ∈ trace (@get_php_path Box.box
                    (Box.installed "/usr/local/bin/php" ["/opt/php/bin/php"])).
Proof.
  apply (@get_php_path_answers_a_launcher Box.box
           (Box.installed "/usr/local/bin/php" ["/opt/php/bin/php"])).
  reflexivity.
Defined.






(** When no line of the standard input is accepted, [input] runs out of
    lines: [prompt_for_php_path] ends in [EOFError] after one round for each
    line, and the saved file is untouched. *)
Theorem prompt_without_launcher_raises_eof `{Sys : System} (w : world) :
  Forall (turned_down w) (stdin w) ->
  prompt_for_php_path w =
  Ran (Raise EOFError)
      {| saved_php_path_file := saved_php_path_file w; stdin := [] |}
      (IoPrint unable_message
       :: flat_map rejection (stdin w) ++ [IoInput launcher_prompt]).
Proof.
  intros Hall. rewrite prompt_for_php_path_run. cbv zeta.
  rewrite (prompt_loop_eof _ _ Hall eq_refl). reflexivity.
Qed.

Lemma prompt_without_launcher_raises_eof_witness :
  @prompt_for_php_path Box.box (Box.installed "/old/php" ["python"; "slow"; ""])
  = Ran (Raise EOFError) (Box.installed "/old/php" [])
        (IoPrint unable_message
         :: flat_map rejection ["python"; "slow"; ""]
         ++ [IoInput launcher_prompt]).
Proof.
  apply (@prompt_without_launcher_raises_eof Box.box
           (Box.installed "/old/php" ["python"; "slow"; ""])).
  repeat constructor; exists false; (split; [reflexivity|discriminate]).
Defined.



End PhpFinderFacts.

(** * More on the crawler *)

(** ** References and titles *)

Module LinkFacts.
Import PyStr PyText PyStrFacts PyTextFacts.

Lemma lstrip_id s :
  (forall c, first_char s = Some c -> isspace c = false) -> lstrip s = s.
Proof.
  destruct s as [|a s]; [reflexivity|]. simpl. intros H.
  now rewrite (H a eq_refl).
Qed.

Lemma rstrip_id s :
  (forall c, last_char s = Some c -> isspace c = false) -> rstrip s = s.
Proof.
  induction s as [|a s IH]; [reflexivity|]. intros H.
  destruct s as [|b s].
  - simpl. now rewrite (H a eq_refl).
  - change (rstrip (String a (String b s)))
      with (match rstrip (String b s) with
            | EmptyString => if isspace a then EmptyString else String a EmptyString
            | r => String a r
            end).
    rewrite IH; [reflexivity|]. intros c Hc. apply H. exact Hc.
Qed.

Lemma strip_id s :
  (forall c, first_char s = Some c -> isspace c = false) ->
  (forall c, last_char s = Some c -> isspace c = false) ->
  strip s = s.
Proof. intros Hf Hl. unfold strip. rewrite (lstrip_id s Hf). now apply rstrip_id. Qed.

Lemma last_char_app x y d :
  last_char y = Some d -> last_char (x +:+ y) = Some d.
Proof.
  intros Hy. induction x as [|c x IH]; [exact Hy|].
  change (String c x +:+ y) with (String c (x +:+ y)).
  destruct (x +:+ y) as [|b z] eqn:Hz; [discriminate|]. exact IH.
Qed.

Lemma last_char_replace old new s d :
  last_char s = Some d -> Ascii.eqb d old = false ->
  last_char (replace old new s) = Some d.
Proof.
  intros Hs Hd. induction s as [|a s IH]; [discriminate|].
  destruct s as [|b s].
  - injection Hs as ->. simpl. now rewrite Hd.
  - specialize (IH Hs).
    change (replace old new (String a (String b s)))
      with (if Ascii.eqb a old then new +:+ replace old new (String b s)
            else String a (replace old new (String b s))).
    destruct (Ascii.eqb a old).
    + now apply last_char_app.
    + destruct (replace old new (String b s)); [discriminate|exact IH].
Qed.

Lemma first_char_replace_inv old new s c :
  (forall a, first_char s = Some a -> Ascii.eqb a old = false) ->
  first_char (replace old new s) = Some c -> first_char s = Some c.
Proof.
  destruct s as [|a s]; [discriminate|]. simpl. intros H.
  now rewrite (H a eq_refl).
Qed.

Lemma last_char_some s : s <> "" -> exists d, last_char s = Some d.
Proof.
  induction s as [|a s IH]; [congruence|]. intros _.
  destruct s as [|b s]; [now exists a|]. apply IH. discriminate.
Qed.

Lemma not_space_not_blank c : isspace c = false -> Ascii.eqb c " " = false.
Proof.
  intros Hc. apply Ascii.eqb_neq. intros ->. discriminate.
Qed.

(** The normal form of a reference is stripped and holds no space. *)
Lemma normal_form_fixed page :
  let page' := replace " " "%20" (strip page) in
  replace " " "%20" (strip page') = page'.
Proof.
  cbv zeta. destruct (strip_ends page) as [Hf Hl].
  rewrite strip_id.
  - apply replace_id. now apply replace_none_left.
  - intros c Hc. apply Hf. eapply first_char_replace_inv; [|exact Hc].
    intros a Ha. apply not_space_not_blank, Hf, Ha.
  - intros c Hc.
    destruct (strip page) as [|a s] eqn:Hs; [discriminate|].
    destruct (last_char_some (String a s)) as [d Hd]; [discriminate|].
    pose proof (Hl d Hd) as Hsp.
    rewrite (last_char_replace _ _ _ d Hd (not_space_not_blank _ Hsp)) in Hc.
    now injection Hc as <-.
Qed.

Lemma lstrip_blank s : all_chars isspace s = true -> lstrip s = "".
Proof.
  induction s as [|a s IH]; [reflexivity|]. simpl.
  intros H. apply andb_prop in H as [-> H]. auto.
Qed.

Lemma strip_blank s : all_chars isspace s = true -> strip s = "".
Proof. intros H. unfold strip. now rewrite lstrip_blank. Qed.

End LinkFacts.

Module TitleFacts.
Import PyStr PyText PyStrFacts PyTextFacts.

Lemma contains_cons sep c s :
  contains (String sep "") (String c s)
  = Ascii.eqb c sep || contains (String sep "") s.
Proof.
  change (contains (String sep "") (String c s))
    with (String.prefix (String sep "") (String c s) || contains (String sep "") s).
  now rewrite prefix_one.
Qed.

Lemma last_segment_whole sep s :
  contains (String sep "") s = false -> last_segment sep s = s.
Proof.
  destruct s as [|c s]; [reflexivity|]. rewrite contains_cons.
  intros H. apply orb_false_elim in H as [Hc Hs]. simpl. now rewrite Hs, Hc.
Qed.

Lemma last_segment_no_sep sep s :
  contains (String sep "") (last_segment sep s) = false.
Proof.
  induction s as [|c s IH]; [reflexivity|]. simpl.
  destruct (contains (String sep "") s) eqn:Hs; [exact IH|].
  destruct (Ascii.eqb c sep) eqn:Hc; [exact Hs|].
  now rewrite contains_cons, Hc, Hs.
Qed.

Lemma last_segment_suffix sep s :
  exists before, s = before +:+ last_segment sep s
    /\ (before = "" \/ last_char before = Some sep).
Proof.
  induction s as [|c s (before & Hs & Hb)]; [exists ""; auto|]. simpl.
  destruct (contains (String sep "") s) eqn:Hc.
  - exists (String c before). split.
    + change (String c s = String c (before +:+ last_segment sep s)). now rewrite <- Hs.
    + right. destruct Hb as [->|Hb].
      * change (s = last_segment sep s) in Hs.
        pose proof (last_segment_no_sep sep s) as Hn. rewrite <- Hs in Hn.
        congruence.
      * destruct before; [discriminate|exact Hb].
  - destruct (Ascii.eqb_spec c sep) as [->|Hne].
    + exists (String sep ""). split; [reflexivity|now right].
    + exists "". auto.
Qed.

Lemma split_on_two sep s :
  contains (String sep "") s = true ->
  exists p q ps, split_on sep s = p :: q :: ps.
Proof.
  induction s as [|c s IH]; [discriminate|]. rewrite contains_cons. simpl.
  destruct (split_on_cons sep s) as (p & ps & Hs).
  destruct (Ascii.eqb c sep); simpl.
  - intros _. rewrite Hs. eauto.
  - intros H. destruct (IH H) as (p' & q & ps' & Hs'). rewrite Hs'. eauto.
Qed.

(** [last_segment] is the last piece of [split_on]: [s.split(sep)[-1]]. *)
Lemma last_split_on sep s :
  last (split_on sep s) = Some (last_segment sep s).
Proof.
  induction s as [|c s IH]; [reflexivity|]. simpl.
  destruct (contains (String sep "") s) eqn:Hc.
  - destruct (split_on_two _ _ Hc) as (p & q & ps & Hs). rewrite Hs in *.
    destruct (Ascii.eqb c sep); exact IH.
  - rewrite (split_on_whole _ _ Hc). destruct (Ascii.eqb c sep); reflexivity.
Qed.

Lemma last_segment_after_sep sep s :
  last_char s = Some sep -> last_segment sep s = "".
Proof.
  induction s as [|c s IH]; [discriminate|]. simpl.
  destruct s as [|b s].
  - intros [= ->]. simpl. now rewrite Ascii.eqb_refl.
  - intros H. specialize (IH H).
    destruct (contains (String sep "") (String b s)) eqn:Hc; [exact IH|].
    rewrite (last_segment_whole _ _ Hc) in IH. discriminate.
Qed.

End TitleFacts.

(** The title of a page record.  A title of the markup that is not empty
    is taken as it is.  Otherwise the title is the last piece of the path
    split at ["/"]: what follows the last slash.  It holds no slash, and it
    is empty for a path that ends with a slash. *)
Theorem page_title_falls_back_to_last_segment `{C : Collaborators}
    (scraper : Scraper) (path : string) :
  match scraper_title scraper with
  | Some (Some (String a t)) => page_title scraper path = String a t
  | _ =>
      last (PyText.split_on "/" path) = Some (page_title scraper path)
      /\ PyStr.contains "/" (page_title scraper path) = false
      /\ (exists before, path = before +:+ page_title scraper path
            /\ (before = "" \/ PyStr.last_char before = Some "/"%char))
      /\ (PyStr.last_char path = Some "/"%char -> page_title scraper path = "")
  end.
Proof.
  assert (Hfall :
    last (PyText.split_on "/" path) = Some (PyStr.last_segment "/" path)
    /\ PyStr.contains "/" (PyStr.last_segment "/" path) = false
    /\ (exists before, path = before +:+ PyStr.last_segment "/" path
          /\ (before = "" \/ PyStr.last_char before = Some "/"%char))
    /\ (PyStr.last_char path = Some "/"%char -> PyStr.last_segment "/" path = "")).
  { repeat split.
    - apply TitleFacts.last_split_on.
    - apply TitleFacts.last_segment_no_sep.
    - apply TitleFacts.last_segment_suffix.
    - apply TitleFacts.last_segment_after_sep. }
  unfold page_title.
  destruct (scraper_title scraper) as [[[|a t]|]|]; [exact Hfall|reflexivity|exact Hfall..].
Qed.

(** The normal form of a reference.  Stripping and encoding a reference
    that is already stripped and encoded changes nothing, so a reference
    that went through [found_c_url] gives the same candidate when it goes
    through again: [%20] is not encoded twice.  A reference of whitespace
    only is joined to the page as the empty reference. *)
Theorem reference_normal_form `{C : Collaborators} (cfg : CrawlerConfig)
    (c_url : CrawlerURL) (page : string) :
  found_c_url cfg c_url (PyStr.replace " " "%20" (PyStr.strip page))
    = found_c_url cfg c_url page
  /\ (PyStr.all_chars PyStr.isspace page = true ->
      found_c_url cfg c_url page = found_c_url cfg c_url "").
Proof.
  unfold found_c_url. cbv zeta. split.
  - now rewrite LinkFacts.normal_form_fixed.
  - intros H. now rewrite (LinkFacts.strip_blank _ H).
Qed.

Ltac count_events :=
  repeat (rewrite count_cons || rewrite count_app || rewrite count_nil);
  cbn [is_end is_report is_get is_status_warning is_exception_warning
       is_html_parser is_document_parser is_signal is_page_or_document
       is_record orb].

Section CycleCounts.
Context `{C : Collaborators}.
Implicit Types (s : Crawler) (c_url : CrawlerURL) (r : Response).

Lemma count_parse_none (p : event -> bool) evs :
  (forall ev, is_parse_event ev = true -> p ev = false) ->
  Forall (fun ev => is_parse_event ev = true) evs -> count p evs = 0%nat.
Proof.
  intros Hp Hall. apply count_none. eapply Forall_impl; [exact Hall|]. exact Hp.
Qed.

Lemma count_signal_none (p : event -> bool) evs :
  (forall ev, is_signal ev = true -> p ev = false) ->
  Forall (fun ev => is_signal ev = true) evs -> count p evs = 0%nat.
Proof.
  intros Hp Hall. apply count_none. eapply Forall_impl; [exact Hall|]. exact Hp.
Qed.

Lemma parse_response_counts r c_url s :
  let evs := emitted (parse_response r c_url s) in
  count is_get evs = 0%nat
  /\ count is_status_warning evs = 0%nat
  /\ count is_exception_warning evs = 0%nat
  /\ count is_end evs = 0%nat
  /\ (count is_page_or_document evs <= 1)%nat
  /\ (count is_report evs <= 1)%nat.
Proof.
  cbv zeta.
  destruct (parse_response_keeps r c_url s) as [_ Hall].
  repeat split; try (apply count_parse_none; [now intros []|exact Hall]).
  - unfold parse_response.
    destruct (headers r !! "content-type") as [content_type|]; [|count_events; lia].
    destruct (PyStr.contains "text/html" content_type).
    + destruct (_parse_page_shape r c_url s) as (signals & tail & -> & Hsig & Htail).
      pose proof (count_signal_none is_page_or_document signals
                    ltac:(now intros []) Hsig) as Hnone.
      destruct (res (_parse_page r c_url s)).
      * destruct Htail as (found & page_info & ->). count_events. lia.
      * destruct Htail as [->|(found & ->)]; count_events; lia.
    + rewrite _parse_document_run.
      cbn [emitted].
      destruct (DocumentResponse_extract r (documents (config s))) as [data|];
        [destruct (decide (data = ∅))|]; count_events; lia.
  - unfold parse_response.
    destruct (headers r !! "content-type") as [content_type|]; [|count_events; lia].
    destruct (PyStr.contains "text/html" content_type).
    + destruct (_parse_page_shape r c_url s) as (signals & tail & -> & Hsig & Htail).
      pose proof (count_signal_none is_report signals
                    ltac:(now intros []) Hsig) as Hnone.
      destruct (res (_parse_page r c_url s)).
      * destruct Htail as (found & page_info & ->). count_events. lia.
      * destruct Htail as [->|(found & ->)]; count_events; lia.
    + rewrite _parse_document_run.
      cbn [emitted].
      destruct (DocumentResponse_extract r (documents (config s))) as [data|];
        [destruct (decide (data = ∅))|]; count_events; lia.
Qed.

(** The events of the [try] statement begin with the request. *)
Lemma handled_head c_url s :
  exists evs,
    emitted (try_except (fetch_and_parse c_url) (on_exception c_url) s)
    = EvGet (get_url c_url) (agent (config s)) 30 :: evs
    /\ count is_get evs = 0%nat
    /\ (count is_status_warning evs <= 1)%nat
    /\ (count is_exception_warning evs <= 1)%nat
    /\ (count is_page_or_document evs <= 1)%nat
    /\ (count is_report evs <= 2)%nat
    /\ count is_end evs = 0%nat.
Proof.
  rewrite try_run.
  destruct (requests_get (get_url c_url) (agent (config s)) 30) as [r|e] eqn:Hget.
  - rewrite (fetch_returns c_url s r Hget). cbn [res emitted].
    destruct (parse_response_counts r c_url s) as (Hg & Hsw & Hew & He & Hpd & Hr).
    cbv zeta in *.
    destruct (res (parse_response r c_url s)) as [u|e]; cbn [emitted].
    + eexists. split; [reflexivity|]. count_events. repeat split; lia.
    + eexists. split; [reflexivity|]. count_events. repeat split; lia.
  - rewrite (fetch_raises c_url s e Hget). cbn [res emitted].
    eexists. split; [reflexivity|]. count_events. repeat split; lia.
Qed.

Lemma handled_events c_url s :
  Forall (fun ev => is_fetch_event ev = true \/ is_exception_warning ev = true)
    (emitted (try_except (fetch_and_parse c_url) (on_exception c_url) s)).
Proof.
  destruct (fetch_and_parse_keeps c_url s) as [_ Hall].
  assert (Hall' : Forall (fun ev => is_fetch_event ev = true
                                    \/ is_exception_warning ev = true)
                    (emitted (fetch_and_parse c_url s)))
    by (eapply Forall_impl; [exact Hall|]; now left).
  rewrite try_run. destruct (res (fetch_and_parse c_url s)); [exact Hall'|].
  cbn [emitted]. apply Forall_app. split; [exact Hall'|].
  apply Forall_cons_2; [now right|]. apply Forall_cons_2; [now left|].
  apply Forall_nil_2.
Qed.

Lemma handled_config c_url s :
  config (post (try_except (fetch_and_parse c_url) (on_exception c_url) s))
  = config s.
Proof. now rewrite (only_schedule_config _ _ (try_only_schedule c_url _)). Qed.

End CycleCounts.

(** What one call of [crawl_next] can do.  With an empty frontier it only
    calls [end()].  Otherwise it sends one request, for the URL the
    scheduler handed out and with the configured agent, and never a second
    one; it issues at most one status warning and one exception warning,
    adds at most one page or document record, reports to the scheduler at
    most twice, and does not call [end()].  This holds however the cycle
    ends. *)
Theorem cycle_fetches_once `{C : Collaborators} (s : Crawler) :
  let evs := emitted (crawl_next s) in
  match fst (next_url (schedule s)) with
  | None => evs = [EvEnd]
  | Some c_url =>
      EvGet (get_url c_url) (agent (config s)) 30 ∈ evs
      /\ count is_get evs = 1%nat
      /\ (count is_status_warning evs <= 1)%nat
      /\ (count is_exception_warning evs <= 1)%nat
      /\ (count is_page_or_document evs <= 1)%nat
      /\ (count is_report evs <= 2)%nat
      /\ count is_end evs = 0%nat
  end.
Proof.
  cbv zeta.
  destruct (next_url (schedule s)) as [[c_url|] sch] eqn:Hnext; cbn [fst].
  2:{ now rewrite (crawl_next_finished s sch Hnext). }
  destruct (handled_head c_url (set_schedule sch s))
    as (evs & Hevs & Hg & Hsw & Hew & Hpd & Hr & He).
  change (config (set_schedule sch s)) with (config s) in Hevs.
  destruct (default_delay (config s)) as [|d0 ds] eqn:Hd.
  - rewrite (crawl_next_cycle_empty s c_url sch Hnext Hd). cbv zeta.
    cbn [emitted]. rewrite Hevs. split.
    { do 2 apply list_elem_of_further. apply list_elem_of_here. }
    count_events. repeat split; lia.
  - destruct (crawl_next_cycle s c_url sch Hnext) as (sample & _ & ->);
      [rewrite Hd; discriminate|].
    cbv zeta. cbn [emitted]. rewrite Hevs. split.
    { do 2 apply list_elem_of_further. apply list_elem_of_here. }
    count_events. repeat split; lia.
Qed.

(** From one cycle to the next.  The timer started at the end of a cycle
    runs for the delay computed in that cycle, and the next cycle waits for
    that timer before anything else: the wait comes first, the request
    right after it, and nothing else in the cycle waits. *)
Theorem delay_is_waited_before_next_request `{C : Collaborators} (s : Crawler)
    c_url sch c_url' sch' :
  next_url (schedule s) = (Some c_url, sch) ->
  default_delay (config s) <> [] ->
  next_url (schedule (post (crawl_next s))) = (Some c_url', sch') ->
  let d := duration (delay_sw (post (crawl_next s))) in
  last (emitted (crawl_next s)) = Some (EvTimerStart d)
  /\ exists evs,
       emitted (crawl_next (post (crawl_next s))) =
       EvPrint c_url' :: EvTimerWait d
         :: EvGet (get_url c_url') (agent (config s)) 30 :: evs
       /\ Forall (fun ev => match ev with EvTimerWait _ => False | _ => True end)
            evs.
Proof.
  intros Hnext Hne Hnext'. cbv zeta.
  assert (Hcfg : config (post (crawl_next s)) = config s).
  { destruct (crawl_next_cycle s c_url sch Hnext Hne) as (sample & _ & ->).
    cbv zeta. cbn [post]. apply (handled_config c_url (set_schedule sch s)). }
  split.
  - destruct (crawl_next_cycle s c_url sch Hnext Hne) as (sample & _ & ->).
    cbv zeta. cbn [emitted post delay_sw set_delay_sw duration].
    rewrite !app_comm_cons. apply last_snoc.
  - set (s1 := post (crawl_next s)) in *.
    destruct (handled_head c_url' (set_schedule sch' s1))
      as (evs & Hevs & _).
    change (config (set_schedule sch' s1)) with (config s1) in Hevs.
    rewrite Hcfg in Hevs.
    assert (Hparse : Forall (fun ev =>
              match ev with EvTimerWait _ => False | _ => True end) evs).
    { pose proof (handled_events c_url' (set_schedule sch' s1)) as Hall.
      rewrite Hevs in Hall. inversion Hall as [|? ? _ Hall']; subst.
      eapply Forall_impl; [exact Hall'|]. intros [] [H|H]; try exact I;
        discriminate. }
    destruct (default_delay (config s1)) as [|d0 ds] eqn:Hd.
    + rewrite (crawl_next_cycle_empty s1 c_url' sch' Hnext' Hd). cbv zeta.
      cbn [emitted]. rewrite Hevs. eauto.
    + destruct (crawl_next_cycle s1 c_url' sch' Hnext') as (sample & _ & ->);
        [rewrite Hd; discriminate|].
      cbv zeta. cbn [emitted]. rewrite Hevs. eexists. split; [reflexivity|].
      apply Forall_app. split; [exact Hparse|]. repeat constructor.
Qed.

Lemma delay_is_waited_before_next_request_witness :
  let s := Site.crawler [Site.index; Site.bare] 1 in
  let d := duration (delay_sw (post (crawl_next s))) in
  last (emitted (crawl_next s)) = Some (EvTimerStart d)
  /\ exists evs,
       emitted (crawl_next (post (crawl_next s))) =
       EvPrint Site.bare :: EvTimerWait d
         :: EvGet "http://x.test/bare" "Firefox" 30 :: evs
       /\ Forall (fun ev => match ev with EvTimerWait _ => False | _ => True end)
            evs.
Proof.
  intros s.
  apply (delay_is_waited_before_next_request s Site.index
           {| Site.pending := [Site.bare]; Site.robots_delay := 1 |}
           Site.bare
           (Site.push
              [Site.c_url_of "http://x.test/files/a.zip"
                 "http://x.test/files/a.zip" "";
               Site.c_url_of "http://x.test/my%20page.html"
                 "http://x.test/my%20page.html" ""]
              {| Site.pending := []; Site.robots_delay := 1 |})).
  - reflexivity.
  - discriminate.
  - reflexivity.
Defined.

Section LayoutOnly.
Context `{C : Collaborators}.

Lemma gather_signals_layout_only cfg scraper s :
  gather_signals (set_layout_only cfg) scraper s = Outcome (Ok tt) s [].
Proof. reflexivity. Qed.

Lemma make_page_info_layout_only cfg scraper r c_url path s :
  make_page_info (set_layout_only cfg) scraper r c_url path s =
  Outcome
    (Ok {| pi_path := get_extension c_url;
           pi_title := page_title scraper path;
           pi_custom_string_occurances := None;
           pi_on_fuzz_list := is_fuzzed c_url;
           pi_on_robots := in_robots c_url;
           pi_code := status_code r |}) s [].
Proof. reflexivity. Qed.

End LayoutOnly.

(** Under [set_layout_only] a page is parsed without any scan: no signal
    is sent to the output, the occurrences of the custom string are not
    counted, and the page is recorded as soon as the markup parses and its
    links are gathered, whatever the pattern scans of the scraper would
    do. *)
Theorem layout_only_runs_no_scan `{C : Collaborators} (s : Crawler)
    (cfg : CrawlerConfig) (r : Response) (c_url : CrawlerURL) :
  config s = set_layout_only cfg ->
  count is_signal (emitted (_parse_page r c_url s)) = 0%nat
  /\ forall scraper found,
       Scraper_new (text r) "html.parser" = Ok scraper ->
       res (gather_found_c_urls (config s) scraper c_url s) = Ok found ->
       _parse_page r c_url s =
       Outcome (Ok tt) (reported found s)
         [EvScraper (text r) "html.parser";
          EvReportFoundUrls found;
          EvAddPage (get_netloc c_url)
            {| pi_path := get_extension c_url;
               pi_title := page_title scraper (get_url_parts_path c_url);
               pi_custom_string_occurances := None;
               pi_on_fuzz_list := is_fuzzed c_url;
               pi_on_robots := in_robots c_url;
               pi_code := status_code r |}].
Proof.
  intros Hcfg.
  assert (Hsig : forall scraper res_ signals,
            gather_signals (config s) scraper s = Outcome res_ s signals ->
            res_ = Ok tt /\ signals = []).
  { intros scraper res_ signals. rewrite Hcfg, gather_signals_layout_only.
    intros [= <- <-]. now split. }
  assert (Hinfo : forall scraper found res_,
            make_page_info (config s) scraper r c_url (get_url_parts_path c_url)
              (reported found s) = Outcome res_ (reported found s) [] ->
            res_ = Ok {| pi_path := get_extension c_url;
                         pi_title := page_title scraper (get_url_parts_path c_url);
                         pi_custom_string_occurances := None;
                         pi_on_fuzz_list := is_fuzzed c_url;
                         pi_on_robots := in_robots c_url;
                         pi_code := status_code r |}).
  { intros scraper found res_. rewrite Hcfg, make_page_info_layout_only.
    now intros [= <-]. }
  destruct (_parse_page_run r c_url s)
    as [e' Hnew|scraper signals e' Hnew Hs|scraper signals e' Hnew Hs Hf
        |scraper signals found' e' Hnew Hs Hf Hi
        |scraper signals found' page_info Hnew Hs Hf Hi].
  - split; [reflexivity|]. intros scraper found Hnew'. congruence.
  - destruct (Hsig _ _ _ Hs) as [? _]. discriminate.
  - destruct (Hsig _ _ _ Hs) as [_ ->].
    split; [reflexivity|]. intros scraper' found Hnew' Hf'.
    assert (scraper' = scraper) as -> by congruence.
    rewrite Hf in Hf'. discriminate.
  - specialize (Hinfo _ _ _ Hi). discriminate.
  - destruct (Hsig _ _ _ Hs) as [_ ->].
    specialize (Hinfo _ _ _ Hi). injection Hinfo as ->.
    split; [reflexivity|]. intros scraper' found Hnew' Hf'.
    assert (scraper' = scraper) as -> by congruence.
    rewrite Hf in Hf'. injection Hf' as <-. reflexivity.
Qed.

Lemma layout_only_runs_no_scan_witness :
  let s := Site.crawler_with (set_layout_only Site.cfg) [] 1 in
  let r : Response :=
    {| url := "http://x.test/broken"; status_code := 500;
       headers := {[ "content-type" := "text/html" ]};
       text := "<broken>" |} in
  @find_all_phones Site.site "<broken>" = Raise Site.ExtractionError
  /\ count is_signal (emitted (_parse_page r Site.broken s)) = 0%nat
  /\ _parse_page r Site.broken s =
     Outcome (Ok tt) (@reported Site.site [] s)
       [EvScraper "<broken>" "html.parser";
        EvReportFoundUrls [];
        EvAddPage "x.test"
          {| pi_path := ""; pi_title := "broken";
             pi_custom_string_occurances := None;
             pi_on_fuzz_list := false; pi_on_robots := false;
             pi_code := 500 |}].
Proof.
  intros s r. split; [reflexivity|].
  destruct (layout_only_runs_no_scan s Site.cfg r Site.broken eq_refl)
    as [Hnone Hrun].
  split; [exact Hnone|].
  apply (Hrun "<broken>" []); reflexivity.
Defined.

(** ** Construction, presets and signals *)

Section ConstructionRuns.
Context `{K : Constructors}.

Lemma start_run (self : Crawler) :
  (_update_crawl_delay ;; delay_sw_start) self =
  match res (_update_crawl_delay self) with
  | Ok _ =>
      Outcome (Ok tt) (post (_update_crawl_delay self))
        (emitted (_update_crawl_delay self)
           ++ [EvTimerStart (duration (delay_sw (post (_update_crawl_delay self))))])
  | Raise e =>
      Outcome (Raise e) (post (_update_crawl_delay self))
        (emitted (_update_crawl_delay self))
  end.
Proof.
  rewrite bind_run. destruct (res (_update_crawl_delay self)); reflexivity.
Qed.

Lemma Crawler_init_run seed config draws c_seed sch :
  CrawlerURL_seed seed = Ok c_seed ->
  Scheduler_new (scheduler_args c_seed config) = Ok sch ->
  let self := {| config := config; schedule := sch; delay_sw := Timer_new;
                 random_draws := draws |} in
  let o := (_update_crawl_delay ;; delay_sw_start) self in
  Crawler_init seed config draws =
  Constructed
    (match res o with Ok _ => Ok (post o) | Raise e => Raise e end)
    ([EvScheduler (scheduler_args c_seed config);
      EvDomainData (get_netloc c_seed); EvOutputStart; EvAddConfig config]
       ++ map EvCycle (emitted o)).
Proof.
  intros Hseed Hsch. unfold Crawler_init. rewrite Hseed. cbv zeta.
  now rewrite Hsch.
Qed.

End ConstructionRuns.

(** [Crawler.__init__] on a seed that parses, with a scheduler that can be
    built and a delay list that is not empty: the scheduler is built before
    the output is started, the first delay is the larger of a sample of the
    list and the delay of the scheduler, the timer is started with it, and
    the first cycle waits for it before its request. *)
Theorem construction_sets_the_first_delay `{K : Constructors} (seed : string)
    (cfg : CrawlerConfig) (draws : nat) (c_seed : CrawlerURL)
    (sch : Scheduler) :
  CrawlerURL_seed seed = Ok c_seed ->
  Scheduler_new (scheduler_args c_seed cfg) = Ok sch ->
  default_delay cfg <> [] ->
  exists sample,
    let d := Z.max sample (get_crawl_delay sch) in
    let s0 := {| config := cfg; schedule := sch;
                 delay_sw := {| duration := d |};
                 random_draws := S draws |} in
    default_delay cfg
      !! (random_stream draws mod length (default_delay cfg))%nat
    = Some sample
    /\ Crawler_init seed cfg draws =
       Constructed (Ok s0)
         [EvScheduler (scheduler_args c_seed cfg);
          EvDomainData (get_netloc c_seed); EvOutputStart; EvAddConfig cfg;
          EvCycle (EvTimerStart d)]
    /\ forall c_url sch',
         next_url sch = (Some c_url, sch') ->
         exists evs,
           emitted (crawl_next s0)
           = EvPrint c_url :: EvTimerWait d
               :: EvGet (get_url c_url) (agent cfg) 30 :: evs.
Proof.
  intros Hseed Hsch Hne.
  set (self := {| config := cfg; schedule := sch; delay_sw := Timer_new;
                  random_draws := draws |}).
  destruct (_update_crawl_delay_run self Hne) as (sample & Hsample & Hrun).
  exists sample. cbv zeta. split; [exact Hsample|]. split.
  - rewrite (Crawler_init_run seed cfg draws c_seed sch Hseed Hsch).
    cbv zeta. fold self. rewrite start_run, Hrun. reflexivity.
  - intros c_url sch' Hnext.
    set (s0 := {| config := cfg; schedule := sch;
                  delay_sw := {| duration := Z.max sample (get_crawl_delay sch) |};
                  random_draws := S draws |}).
    destruct (handled_head c_url (set_schedule sch' s0)) as (evs & Hevs & _).
    change (config (set_schedule sch' s0)) with cfg in Hevs.
    destruct (crawl_next_cycle s0 c_url sch' Hnext Hne) as (sample' & _ & ->).
    cbv zeta. cbn [emitted]. rewrite Hevs. eauto.
Qed.

Lemma construction_sets_the_first_delay_witness :
  exists sample,
    let d := Z.max sample 3 in
    let s0 := Site.crawler_with Site.cfg [Site.index] 3 in
    [0; 2; 5] !! (1 mod 3)%nat = Some sample
    /\ @Crawler_init _ SiteStart.constructors "http://x.test/" Site.cfg 1 =
       Constructed
         (Ok {| config := Site.cfg; schedule := schedule s0;
                delay_sw := {| duration := d |}; random_draws := 2 |})
         [EvScheduler (scheduler_args Site.index Site.cfg);
          EvDomainData "x.test"; EvOutputStart; EvAddConfig Site.cfg;
          EvCycle (EvTimerStart d)]
    /\ forall c_url sch',
         Site.pop (schedule s0) = (Some c_url, sch') ->
         exists evs,
           emitted (crawl_next
                      {| config := Site.cfg; schedule := schedule s0;
                         delay_sw := {| duration := d |}; random_draws := 2 |})
           = EvPrint c_url :: EvTimerWait d
               :: EvGet (get_url c_url) "Firefox" 30 :: evs.
Proof.
  apply (@construction_sets_the_first_delay _ SiteStart.constructors
           "http://x.test/" Site.cfg 1 Site.index
           {| Site.pending := [Site.index]; Site.robots_delay := 3 |}).
  - reflexivity.
  - reflexivity.
  - discriminate.
Defined.

(** No crawler is built from a configuration with an empty delay list.
    When the seed parses and the scheduler is built, the constructor ends in
    [IndexError] after the output was started and given the configuration:
    the timer is never started. *)
Theorem construction_needs_a_delay `{K : Constructors} (seed : string)
    (cfg : CrawlerConfig) (draws : nat) :
  default_delay cfg = [] ->
  (exists e, built (Crawler_init seed cfg draws) = Raise e)
  /\ forall c_seed sch,
       CrawlerURL_seed seed = Ok c_seed ->
       Scheduler_new (scheduler_args c_seed cfg) = Ok sch ->
       Crawler_init seed cfg draws =
       Constructed (Raise IndexError)
         [EvScheduler (scheduler_args c_seed cfg);
          EvDomainData (get_netloc c_seed); EvOutputStart; EvAddConfig cfg].
Proof.
  intros Hnil.
  assert (Hrun : forall c_seed sch,
    CrawlerURL_seed seed = Ok c_seed ->
    Scheduler_new (scheduler_args c_seed cfg) = Ok sch ->
    Crawler_init seed cfg draws =
    Constructed (Raise IndexError)
      [EvScheduler (scheduler_args c_seed cfg);
       EvDomainData (get_netloc c_seed); EvOutputStart; EvAddConfig cfg]).
  { intros c_seed sch Hseed Hsch.
    rewrite (Crawler_init_run seed cfg draws c_seed sch Hseed Hsch).
    cbv zeta. rewrite start_run, _update_crawl_delay_empty by exact Hnil.
    reflexivity. }
  split; [|exact Hrun].
  destruct (CrawlerURL_seed seed) as [c_seed|e] eqn:Hseed.
  - destruct (Scheduler_new (scheduler_args c_seed cfg)) as [sch|e] eqn:Hsch.
    + rewrite (Hrun c_seed sch eq_refl Hsch). eauto.
    + unfold Crawler_init. rewrite Hseed. cbv zeta. rewrite Hsch. eauto.
  - unfold Crawler_init. rewrite Hseed. eauto.
Qed.

Lemma construction_needs_a_delay_witness :
  let cfg := set_default "Firefox" [] "/opt/arachnid" in
  (exists e, built (@Crawler_init _ SiteStart.constructors "http://x.test/"
                      cfg 0) = Raise e)
  /\ forall c_seed sch,
       SiteStart.seed_url "http://x.test/" = Ok c_seed ->
       SiteStart.start_queue (scheduler_args c_seed cfg) = Ok sch ->
       @Crawler_init _ SiteStart.constructors "http://x.test/" cfg 0 =
       Constructed (Raise IndexError)
         [EvScheduler (scheduler_args c_seed cfg);
          EvDomainData (get_netloc c_seed); EvOutputStart; EvAddConfig cfg].
Proof.
  intros cfg.
  apply (@construction_needs_a_delay _ SiteStart.constructors "http://x.test/"
           cfg 0).
  reflexivity.
Defined.

(** How the presets compose.  [set_stealth] undoes [set_aggressive]
    altogether.  [set_aggressive] does not undo [set_stealth]: the agent
    stays the one [set_stealth] chose.  [set_layout_only] commutes with
    both, and each preset applied twice is the preset applied once. *)
Theorem presets_compose (Agent_GOOGLE : string) (Delay_HIGH Delay_NONE : list Z)
    (cfg : CrawlerConfig) :
  let stealth := set_stealth Agent_GOOGLE Delay_HIGH in
  let aggressive := set_aggressive Delay_NONE in
  stealth (aggressive cfg) = stealth cfg
  /\ agent (aggressive (stealth cfg)) = Agent_GOOGLE
  /\ (aggressive (stealth cfg) = aggressive cfg <-> agent cfg = Agent_GOOGLE)
  /\ set_layout_only (stealth cfg) = stealth (set_layout_only cfg)
  /\ set_layout_only (aggressive cfg) = aggressive (set_layout_only cfg)
  /\ stealth (stealth cfg) = stealth cfg
  /\ aggressive (aggressive cfg) = aggressive cfg
  /\ set_layout_only (set_layout_only cfg) = set_layout_only cfg.
Proof.
  cbv zeta. repeat split; try reflexivity.
  - intros H. apply (f_equal agent) in H. simpl in H. congruence.
  - intros H. destruct cfg. simpl in *. now subst.
Qed.

Section Signals.
Context `{C : Collaborators}.

Lemma for_each_emit {A} (xs : list A) (f : A -> event) (s : Crawler) :
  for_each xs (fun x => emit (f x)) s = Outcome (Ok tt) s (map f xs).
Proof.
  unfold for_each. induction xs as [|x xs IH]; [reflexivity|].
  cbn [for_in]. rewrite bind_run. cbn [emit res post emitted].
  rewrite IH. reflexivity.
Qed.

End Signals.

(** Signals are sent to the output as they are found.  When the scan for
    e-mail addresses succeeds and the scan for phone numbers, which comes
    next, raises, the addresses are already in the output: [_parse_page]
    ends in the exception after them, with no report to the scheduler and
    no page record. *)
Theorem signals_before_a_failed_scan_stay `{C : Collaborators} (s : Crawler)
    (r : Response) (c_url : CrawlerURL) (scraper : Scraper)
    (emails : list string) (e : BaseException) :
  scrape_email (config s) = true ->
  scrape_phone_number (config s) = true ->
  Scraper_new (text r) "html.parser" = Ok scraper ->
  find_all_emails scraper = Ok emails ->
  find_all_phones scraper = Raise e ->
  _parse_page r c_url s =
  Outcome (Raise e) s (EvScraper (text r) "html.parser" :: map EvAddEmail emails).
Proof.
  intros Hemail Hphone Hnew Hemails Hphones.
  assert (Hsig : gather_signals (config s) scraper s
                 = Outcome (Raise e) s (map EvAddEmail emails)).
  { unfold gather_signals. rewrite Hemail, Hphone, Hemails, Hphones.
    rewrite bind_run.
    assert (H1 : (call (Ok emails)
                  ≫= λ emails0, for_each emails0 (λ email, emit (EvAddEmail email))) s
                 = Outcome (Ok tt) s (map EvAddEmail emails)).
    { rewrite bind_run. cbn [call res post emitted]. now rewrite for_each_emit. }
    rewrite H1. cbn [res post emitted].
    rewrite bind_run. rewrite bind_run. cbn [call res post emitted].
    now rewrite app_nil_r. }
  destruct (_parse_page_run r c_url s)
    as [e' Hnew'|scraper' signals e' Hnew' Hs|scraper' signals e' Hnew' Hs Hf
        |scraper' signals found' e' Hnew' Hs Hf Hi
        |scraper' signals found' page_info Hnew' Hs Hf Hi];
    try congruence;
    assert (scraper' = scraper) as -> by congruence;
    rewrite Hsig in Hs; discriminate.
Qed.

Lemma signals_before_a_failed_scan_stay_witness :
  let r : Response :=
    {| url := "http://x.test/broken"; status_code := 500;
       headers := {[ "content-type" := "text/html" ]};
       text := "<broken>" |} in
  @_parse_page Mailing.site r Site.broken Mailing.crawler =
  Outcome (Raise Site.ExtractionError) Mailing.crawler
    [EvScraper "<broken>" "html.parser"; EvAddEmail "webmaster@x.test"].
Proof.
  intros r.
  apply (@signals_before_a_failed_scan_stay Mailing.site Mailing.crawler r
           Site.broken "<broken>" ["webmaster@x.test"] Site.ExtractionError);
    reflexivity.
Defined.
